(** * Osmium objects: metadata accessors, ordering and the Dump visitor

    A shallow embedding of [include/osmium/osm/object.hpp] and
    [include/osmium/osm/dump.hpp].

    - fixed-width C++ integers are [Z] with the wrap-around written out;
    - [const char*] arguments are [string]s read up to their terminator;
    - a member function that mutates [*this] is a function on the object's
      fields; one that can throw returns an [outcome] that keeps the fields
      as they were at the [throw];
    - the memory region iterated by [begin()]/[end()] is the list of the
      items stored in it;
    - [std::ostream] is the list of the chunks written to it. *)

From Stdlib Require Import ZArith Bool List Ascii String DecimalString Lia.
Import ListNotations.

Local Open Scope string_scope.
Local Open Scope Z_scope.

(** ** Library functions used by the sources *)

Definition NUL : ascii := Ascii.zero.

Definition uchar (c : ascii) : Z := Z.of_N (N_of_ascii c).

(** [strcmp] from <cstring>: both arguments are read as unsigned characters
    up to the first terminator; the end of a [string] is its terminator. *)
Fixpoint strcmp (a b : string) : Z :=
  match a, b with
  | EmptyString, EmptyString => 0
  | EmptyString, String d _ => 0 - uchar d
  | String c _, EmptyString => uchar c - 0
  | String c a', String d b' =>
      if Ascii.eqb c d
      then (if Ascii.eqb c NUL then 0 else strcmp a' b')
      else uchar c - uchar d
  end.

(** A [string] that is the content of a C string: no terminator inside. *)
Fixpoint cstring (s : string) : Prop :=
  match s with
  | EmptyString => True
  | String c s' => c <> NUL /\ cstring s'
  end.

(** Conversion to an unsigned integer type of [bits] bits. *)
Definition wrap (bits x : Z) : Z := x mod 2 ^ bits.

(** Value range of a signed integer type of [bits] bits. *)
Definition signed_range (bits x : Z) : Prop :=
  - 2 ^ (bits - 1) <= x < 2 ^ (bits - 1).

(** Conversion to a signed integer type of [bits] bits (two's complement). *)
Definition swrap (bits x : Z) : Z :=
  (x + 2 ^ (bits - 1)) mod 2 ^ bits - 2 ^ (bits - 1).

(** Modelled from the spec: [osmium/osm/types.hpp] is not among the sources;
    the identifier is a 64-bit signed integer. *)
Definition object_id_bits : Z := 64.

(** The width of [int]. *)
Definition int_bits : Z := 32.

(** [abs] as the call in [operator<] of object.hpp sees it.  The name is
    not qualified and object.hpp includes only <cstdint> and
    <boost/operators.hpp>, so it is [int abs(int)] of the C library: the
    64-bit identifier is converted to [int] by the call, and the result is
    the absolute value of that [int], whose negation wraps at the least
    [int]. *)
Definition abs (x : Z) : Z :=
  let n := swrap int_bits x in
  if n <? 0 then swrap int_bits (- n) else n.

(** The exception thrown by object.hpp. *)
Inductive exception : Type :=
| runtime_error (what : string).

(** ** The parts of osmium that are not among the sources *)

(** [osmium/osm/types.hpp]: the widths of the unsigned types
    [object_version_type] and [user_id_type], and the conversions from text,
    which either return a value or throw. *)
Class Types : Type := {
  object_version_bits : positive;
  user_id_bits : positive;
  string_to_object_id : string -> exception + Z;
  string_to_object_version : string -> exception + Z;
  string_to_changeset_id : string -> exception + Z;
  string_to_user_id : string -> exception + Z
}.

(** [osmium/utils/timestamp.hpp]. *)
Class Timestamp : Type := {
  parse_iso : string -> exception + Z;
  to_iso : Z -> string
}.

(** ** class Object (object.hpp) *)

(** The data members of [Object]. *)
Record Object : Type := mkObject {
  m_id : Z;
  m_deleted_and_version : Z;
  m_timestamp : Z;
  m_uid : Z;
  m_changeset : Z
}.

(** [Object::Object()] *)
Definition Object_new : Object := mkObject 0 0 0 0 0.

(** What a member function that may throw leaves behind: it returns with the
    object in state [o], or an exception [e] leaves it with the object in
    state [o]. *)
Inductive outcome : Type :=
| Returned (o : Object)
| Thrown (e : exception) (o : Object).

Definition returned (r : outcome) : bool :=
  match r with
  | Returned _ => true
  | Thrown _ _ => false
  end.

(** Evaluate an argument that may throw, then call the setter with it. *)
Definition call_with (arg : exception + Z) (setter : Z -> Object -> Object)
    (o : Object) : outcome :=
  match arg with
  | inl e => Thrown e o
  | inr v => Returned (setter v o)
  end.

Section ObjectMembers.

Context {T : Types} {TS : Timestamp}.

(** [sizeof(object_version_type) * 8] *)
Definition version_bits : Z := Z.pos object_version_bits.

(** [static constexpr int deleted_bit = sizeof(object_version_type) * 8 - 1] *)
Definition deleted_bit : Z := version_bits - 1.

(** [static constexpr object_version_type deleted_bit_mask = 1 << deleted_bit] *)
Definition deleted_bit_mask : Z := wrap version_bits (Z.shiftl 1 deleted_bit).

(** [~x] on [object_version_type] *)
Definition bit_not (x : Z) : Z := wrap version_bits (Z.lnot x).

(** [object_id_type id() const] *)
Definition id (o : Object) : Z := m_id o.

(** [Object& id(object_id_type id)] *)
Definition set_id (v : Z) (o : Object) : Object :=
  mkObject v (m_deleted_and_version o) (m_timestamp o) (m_uid o) (m_changeset o).

(** [Object& id(const char* id)] *)
Definition set_id_str (s : string) (o : Object) : outcome :=
  call_with (string_to_object_id s) set_id o.

(** [object_version_type version() const] *)
Definition version (o : Object) : Z :=
  Z.land (m_deleted_and_version o) (bit_not deleted_bit_mask).

(** [bool deleted() const] *)
Definition deleted (o : Object) : bool :=
  negb (Z.land (m_deleted_and_version o) deleted_bit_mask =? 0).

(** [bool visible() const] *)
Definition visible (o : Object) : bool := negb (deleted o).

Definition with_deleted_and_version (dv : Z) (o : Object) : Object :=
  mkObject (m_id o) (wrap version_bits dv) (m_timestamp o) (m_uid o)
    (m_changeset o).

(** [Object& version(object_version_type version)] *)
Definition set_version (v : Z) (o : Object) : Object :=
  with_deleted_and_version
    (Z.lor (Z.land (m_deleted_and_version o) deleted_bit_mask)
           (Z.land v (bit_not deleted_bit_mask)))
    o.

(** [Object& version(const char* version)] *)
Definition set_version_str (s : string) (o : Object) : outcome :=
  call_with (string_to_object_version s) set_version o.

(** [Object& deleted(bool deleted)] *)
Definition set_deleted (d : bool) (o : Object) : Object :=
  with_deleted_and_version
    (Z.lor (Z.land (m_deleted_and_version o) (bit_not deleted_bit_mask))
           (wrap version_bits (Z.shiftl (if d then 1 else 0) deleted_bit)))
    o.

(** [Object& visible(bool visible)] *)
Definition set_visible (v : bool) (o : Object) : Object :=
  with_deleted_and_version
    (Z.lor (Z.land (m_deleted_and_version o) (bit_not deleted_bit_mask))
           (wrap version_bits (Z.shiftl (if v then 0 else 1) deleted_bit)))
    o.

(** [Object& visible(const char* visible)] *)
Definition set_visible_str (s : string) (o : Object) : outcome :=
  if strcmp "true" s =? 0 then Returned (set_visible true o)
  else if strcmp "false" s =? 0 then Returned (set_visible false o)
  else Thrown (runtime_error "unknown value for visible attribute") o.

(** [changeset_id_type changeset() const] *)
Definition changeset (o : Object) : Z := m_changeset o.

(** [Object& changeset(changeset_id_type changeset)] *)
Definition set_changeset (v : Z) (o : Object) : Object :=
  mkObject (m_id o) (m_deleted_and_version o) (m_timestamp o) (m_uid o) v.

(** [Object& changeset(const char* changeset)] *)
Definition set_changeset_str (s : string) (o : Object) : outcome :=
  call_with (string_to_changeset_id s) set_changeset o.

(** [user_id_type uid() const] *)
Definition uid (o : Object) : Z := m_uid o.

(** [Object& uid(user_id_type uid)] *)
Definition set_uid (v : Z) (o : Object) : Object :=
  mkObject (m_id o) (m_deleted_and_version o) (m_timestamp o) v (m_changeset o).

(** [Object& uid_from_signed(int32_t uid)]: the conditional is an [int],
    converted to [user_id_type] by the assignment. *)
Definition uid_from_signed (v : Z) (o : Object) : Object :=
  mkObject (m_id o) (m_deleted_and_version o) (m_timestamp o)
    (wrap (Z.pos user_id_bits) (if v <? 0 then 0 else v)) (m_changeset o).

(** [Object& uid(const char* uid)] *)
Definition set_uid_str (s : string) (o : Object) : outcome :=
  call_with (string_to_user_id s) set_uid o.

(** [bool user_is_anonymous() const] *)
Definition user_is_anonymous (o : Object) : bool := m_uid o =? 0.

(** [time_t timestamp() const] *)
Definition timestamp (o : Object) : Z := m_timestamp o.

(** [Object& timestamp(time_t timestamp)] *)
Definition set_timestamp (v : Z) (o : Object) : Object :=
  mkObject (m_id o) (m_deleted_and_version o) v (m_uid o) (m_changeset o).

(** [Object& timestamp(const char* timestamp)] *)
Definition set_timestamp_str (s : string) (o : Object) : outcome :=
  call_with (parse_iso s) set_timestamp o.

(** [void set_attribute(const char* attr, const char* value)] *)
Definition set_attribute (attr value : string) (o : Object) : outcome :=
  if strcmp attr "id" =? 0 then set_id_str value o
  else if strcmp attr "version" =? 0 then set_version_str value o
  else if strcmp attr "changeset" =? 0 then set_changeset_str value o
  else if strcmp attr "timestamp" =? 0 then set_timestamp_str value o
  else if strcmp attr "uid" =? 0 then set_uid_str value o
  else if strcmp attr "visible" =? 0 then set_visible_str value o
  else Returned o.

(** [bool operator<(const Object& lhs, const Object& rhs)] *)
Definition lt (lhs rhs : Object) : bool :=
  ((id lhs =? id rhs) && (version lhs <? version rhs))
  || (abs (id lhs) <? abs (id rhs)).

End ObjectMembers.

(** ** Items in memory *)

(** [osmium::item_type], the type tag in the header of every item. *)
Inductive item_type : Type :=
| node
| way
| relation
| tag_list
| way_node_list
| relation_member_list.

Definition item_type_eqb (a b : item_type) : bool :=
  match a, b with
  | node, node | way, way | relation, relation => true
  | tag_list, tag_list | way_node_list, way_node_list => true
  | relation_member_list, relation_member_list => true
  | _, _ => false
  end.

(** [osmium/osm/location.hpp] and the stream operators of
    [osmium/osm/ostream.hpp] are not among the sources: the location type,
    its test for the undefined sentinel, and the text that the stream
    insertions of dump.hpp produce for a location and its coordinates (as
    [double]s, [std::fixed] with precision 7) and for an [item_type]. *)
Class Geo : Type := {
  Location : Type;
  defined : Location -> bool;
  show_lon : Location -> string;
  show_lat : Location -> string;
  show_location : Location -> string;
  show_item_type : item_type -> string
}.

(** [osmium/memory/item.hpp] and [osmium/osm/tag.hpp] are not among the
    sources: the size that a default-constructed [TagList] reports. *)
Class Memory : Type := {
  sizeof_TagList : Z
}.

(** [osmium::Tag] *)
Record Tag : Type := mkTag {
  key : string;
  value : string
}.

(** [osmium::TagList]: the size in its header and its tags in order. *)
Record TagList : Type := mkTagList {
  tl_size : Z;
  tl_tags : list Tag
}.

(** Modelled from the spec: [TagList::TagList()] is not among the sources; a
    default-constructed TagList is a well-defined empty one. *)
Definition TagList_new {M : Memory} : TagList := mkTagList sizeof_TagList [].

(** [osmium::WayNode] *)
Record WayNode {G : Geo} : Type := mkWayNode {
  wn_ref : Z;
  wn_location : Location
}.
Arguments mkWayNode {G}.

(** [osmium::WayNodeList] *)
Record WayNodeList {G : Geo} : Type := mkWayNodeList {
  wnl_size : Z;
  wnl_nodes : list WayNode
}.
Arguments mkWayNodeList {G}.

(** Modelled from the spec: [osmium::RelationMember] is not among the
    sources; a member is its type, reference and role, and the resolved
    object, which is there only when an enrichment step attached it.  [I] is
    the type of items. *)
Record RelationMember (I : Type) : Type := mkRelationMember {
  rm_type : item_type;
  rm_ref : Z;
  rm_role : string;
  rm_resolved_object : option I
}.
Arguments mkRelationMember {I}.
Arguments rm_type {I}.
Arguments rm_ref {I}.
Arguments rm_role {I}.
Arguments rm_resolved_object {I}.

(** The memory of an [Object]: the size in its header, its data members, the
    user name, and the items stored from [subitems_position()] to the end
    of the object, in the order in which the iterator meets them.  [I] is
    the type of items. *)
Record ObjectMemory (I : Type) : Type := mkObjectMemory {
  om_size : Z;
  om_object : Object;
  om_user : string;
  om_subitems : list I
}.
Arguments mkObjectMemory {I}.
Arguments om_size {I}.
Arguments om_object {I}.
Arguments om_user {I}.
Arguments om_subitems {I}.

Scheme All for list.
Scheme All for option.
Scheme All for RelationMember.
Scheme All for ObjectMemory.

(** An item, by the type tag in its header. *)
Inductive Item {G : Geo} : Type :=
| ITagList (tl : TagList)
| IWayNodeList (wnl : WayNodeList)
| IRelationMemberList (size : Z) (members : list (RelationMember Item))
| INode (o : ObjectMemory Item) (location : Location)
| IWay (o : ObjectMemory Item)
| IRelation (o : ObjectMemory Item).

Section Items.

Context {T : Types} {TS : Timestamp} {G : Geo} {M : Memory}.

(** [Item::type()] *)
Definition type (it : Item) : item_type :=
  match it with
  | ITagList _ => tag_list
  | IWayNodeList _ => way_node_list
  | IRelationMemberList _ _ => relation_member_list
  | INode _ _ => node
  | IWay _ => way
  | IRelation _ => relation
  end.

(** [template <class T> T& subitem_of_type()]: the loop from [begin()] to
    [end()] over the sub-items; [static_subitem] is the function's
    [static T subitem], returned when the loop ends without a match. *)
Fixpoint subitem_of_type (itemtype : item_type) (static_subitem : Item)
    (subitems : list Item) : Item :=
  match subitems with
  | [] => static_subitem
  | it :: rest =>
      if item_type_eqb (type it) itemtype then it
      else subitem_of_type itemtype static_subitem rest
  end.

(** [reinterpret_cast<TagList&>] of an item. *)
Definition as_TagList (it : Item) : option TagList :=
  match it with
  | ITagList tl => Some tl
  | _ => None
  end.

(** [TagList& tags()]: nothing in the sources writes to the static TagList
    of [subitem_of_type], which is as its constructor left it. *)
Definition tags (o : ObjectMemory Item) : option TagList :=
  as_TagList (subitem_of_type tag_list (ITagList TagList_new) (om_subitems o)).

(** [bool RelationMember::full_member() const] *)
Definition full_member (m : RelationMember Item) : bool :=
  match rm_resolved_object m with
  | Some _ => true
  | None => false
  end.

(** [const Item& RelationMember::get_object() const]: there is nothing to
    refer to when no object is attached. *)
Definition get_object (m : RelationMember Item) : option Item :=
  rm_resolved_object m.

End Items.

(** ** class Dump (dump.hpp) *)

(** [std::ostream]: the characters written so far. *)
Definition ostream : Type := string.

(** A piece of code that writes to the stream [m_out]; [None] is the access
    to an object that is not there. *)
Definition action : Type := ostream -> option ostream.

(** [m_out << s] *)
Definition put (s : string) : action := fun out => Some (out ++ s)%string.

Definition skip : action := fun out => Some out.

Definition fault : action := fun _ => None.

Definition and_then (a b : action) : action :=
  fun out =>
    match a out with
    | Some out' => b out'
    | None => None
    end.

Notation "a ;; b" := (and_then a b) (at level 61, right associativity).

(** [for (auto& x : l) body], and [apply_visitor] over [begin(), end())]. *)
Definition for_each {A : Type} (body : A -> action) : list A -> action :=
  fix loop (l : list A) : action :=
    match l with
    | [] => skip
    | x :: rest => body x ;; loop rest
    end.

(** What an action writes to an empty stream. *)
Definition output_of (a : action) : string :=
  match a "" with
  | Some out => out
  | None => ""
  end.

(** An action that never faults and only adds to the stream, the same text
    whatever was written before. *)
Definition appending (a : action) : Prop :=
  exists w : string, forall out : ostream, a out = Some (out ++ w)%string.

(** The texts of a list, one after the other. *)
Definition texts (l : list string) : string := fold_right String.append "" l.

(** The newline character. *)
Definition nl : string := String (ascii_of_nat 10) EmptyString.

(** Stream insertion of an integer: its decimal digits. *)
Definition show_Z (z : Z) : string := NilZero.string_of_int (Z.to_int z).

(** The data members of [Dump] other than the stream [m_out], which every
    [Dump] built by the recursion shares. *)
Record Dump : Type := mkDump {
  m_with_size : bool;
  m_prefix : string
}.

Section DumpMembers.

Context {T : Types} {TS : Timestamp} {G : Geo} {M : Memory}.

(** [void print_title(const char* title, const Item& item)]: of the item
    only [item.size()], the size in its header, is used. *)
Definition print_title (d : Dump) (title : string) (item_size : Z) : action :=
  put (m_prefix d ++ title ++ ":") ;;
  (if m_with_size d then put (" [" ++ show_Z item_size ++ "]") else skip) ;;
  put nl.

(** The insertions of [print_meta] that come before its recursion. *)
Definition print_meta_fields (d : Dump) (o : ObjectMemory Item) : action :=
  put (m_prefix d ++ "  id=" ++ show_Z (id (om_object o)) ++ nl) ;;
  put (m_prefix d ++ "  version=" ++ show_Z (version (om_object o)) ++ nl) ;;
  put (m_prefix d ++ "  uid=" ++ show_Z (uid (om_object o)) ++ nl) ;;
  put (m_prefix d ++ "  user=|" ++ om_user o ++ "|" ++ nl) ;;
  put (m_prefix d ++ "  changeset=" ++ show_Z (changeset (om_object o)) ++ nl) ;;
  put (m_prefix d ++ "  timestamp=" ++ to_iso (timestamp (om_object o)) ++ nl) ;;
  put (m_prefix d ++ "  visible="
       ++ (if visible (om_object o) then "yes" else "no") ++ nl).

(** [void print_location(const Node& node)]: its two lines.  [std::fixed]
    and [std::setprecision(7)] are in what [show_lon] and [show_lat] stand
    for; that they stay set on [m_out] afterwards is outside this stream,
    which holds the characters written and no format flags. *)
Definition print_location (d : Dump) (location : Location) : action :=
  put (m_prefix d ++ "  lon=" ++ show_lon location ++ nl) ;;
  put (m_prefix d ++ "  lat=" ++ show_lat location ++ nl).

(** [void operator()(const TagList& tags)] *)
Definition Dump_TagList (d : Dump) (tl : TagList) : action :=
  print_title d "TAGS" (tl_size tl) ;;
  for_each
    (fun tag =>
       put (m_prefix d ++ "  k=|" ++ key tag ++ "| v=|" ++ value tag ++ "|"
            ++ nl))
    (tl_tags tl).

(** [void operator()(const WayNodeList& wnl)] *)
Definition Dump_WayNodeList (d : Dump) (wnl : WayNodeList) : action :=
  print_title d "NODES" (wnl_size wnl) ;;
  for_each
    (fun wn =>
       put (m_prefix d ++ "  ref=" ++ show_Z (wn_ref wn)) ;;
       (if defined (wn_location wn)
        then put (" pos=" ++ show_location (wn_location wn))
        else skip) ;;
       put nl)
    (wnl_nodes wnl).

(** The handlers that recurse do it through [apply_visitor], which
    dispatches back to the handlers of the [Dump] it is given. *)
Section Recursion.

Variable apply_visitor : Dump -> Item -> action.

(** Modelled from the spec: [apply_visitor(visitor, begin, end)] of
    [osmium/osm/visitor.hpp] is not among the sources; it applies the
    visitor to each item of the range, in order. *)
Definition apply_visitor_range (d : Dump) (items : list Item) : action :=
  for_each (apply_visitor d) items.

(** [void print_meta(const Object& object)] *)
Definition print_meta (d : Dump) (o : ObjectMemory Item) : action :=
  print_meta_fields d o ;;
  apply_visitor_range (mkDump (m_with_size d) (m_prefix d ++ "  "))
    (om_subitems o).

(** [void operator()(const RelationMemberList& rml)] *)
Definition Dump_RelationMemberList (d : Dump) (sz : Z)
    (members : list (RelationMember Item)) : action :=
  print_title d "MEMBERS" sz ;;
  for_each
    (fun member =>
       put (m_prefix d ++ "  type=" ++ show_item_type (rm_type member)
            ++ " ref=" ++ show_Z (rm_ref member)
            ++ " role=|" ++ rm_role member ++ "|" ++ nl) ;;
       (if full_member member
        then match get_object member with
             | Some object =>
                 apply_visitor
                   (mkDump (m_with_size d) (m_prefix d ++ "  | ")) object
             | None => fault
             end
        else skip))
    members.

(** [void operator()(const Node& node)] *)
Definition Dump_Node (d : Dump) (o : ObjectMemory Item)
    (location : Location) : action :=
  print_title d "NODE" (om_size o) ;;
  print_meta d o ;;
  print_location d location.

(** [void operator()(const Way& way)] *)
Definition Dump_Way (d : Dump) (o : ObjectMemory Item) : action :=
  print_title d "WAY" (om_size o) ;;
  print_meta d o.

(** [void operator()(const Relation& relation)] *)
Definition Dump_Relation (d : Dump) (o : ObjectMemory Item) : action :=
  print_title d "RELATION" (om_size o) ;;
  print_meta d o.

End Recursion.

(** Modelled from the spec: [apply_visitor(visitor, item)] of
    [osmium/osm/visitor.hpp] is not among the sources; it invokes the
    handler whose declared type matches the type tag of the item. *)
Fixpoint apply_visitor (d : Dump) (it : Item) {struct it} : action :=
  match it with
  | ITagList tl => Dump_TagList d tl
  | IWayNodeList wnl => Dump_WayNodeList d wnl
  | IRelationMemberList sz members =>
      Dump_RelationMemberList apply_visitor d sz members
  | INode o location => Dump_Node apply_visitor d o location
  | IWay o => Dump_Way apply_visitor d o
  | IRelation o => Dump_Relation apply_visitor d o
  end.

(** What applying [d] to [it] writes to an empty stream. *)
Definition written (d : Dump) (it : Item) : string :=
  output_of (apply_visitor d it).

End DumpMembers.

(** ** An instance of the missing parts, for concrete runs *)

(** Decimal text to a number; anything else throws. *)
Definition parse_decimal (s : string) : exception + Z :=
  match NilZero.int_of_string s with
  | Some i => inr (Z.of_int i)
  | None => inl (runtime_error "not a number")
  end.

(** 32-bit [object_version_type] and [user_id_type]. *)
Definition types32 : Types :=
  Build_Types 32%positive 32%positive
    parse_decimal parse_decimal parse_decimal parse_decimal.

(** Timestamps written as their number of seconds. *)
Definition seconds : Timestamp := Build_Timestamp parse_decimal show_Z.

(** Locations as a pair of fixed-point coordinates or the undefined
    location, written as integers. *)
Definition grid : Geo :=
  Build_Geo (option (Z * Z))
    (fun l => match l with Some _ => true | None => false end)
    (fun l => match l with Some p => show_Z (fst p) | None => "?" end)
    (fun l => match l with Some p => show_Z (snd p) | None => "?" end)
    (fun l =>
       match l with
       | Some p => "(" ++ show_Z (fst p) ++ "," ++ show_Z (snd p) ++ ")"
       | None => "(undefined)"
       end)%string
    (fun t =>
       match t with
       | node => "n"
       | way => "w"
       | relation => "r"
       | tag_list => "T"
       | way_node_list => "N"
       | relation_member_list => "M"
       end).

Definition memory8 : Memory := Build_Memory 8.

#[local] Existing Instances types32 seconds grid memory8.

(** [Object().id(i).version(v)] *)
Definition object_with {T : Types} (i v : Z) : Object :=
  set_version v (set_id i Object_new).

(** A way of user alice with one tag and two node references, the second
    with a location. *)
Definition example_way : @Item grid :=
  IWay
    (mkObjectMemory 120 (set_uid 3 (object_with 42 2)) "alice"
       [ITagList (mkTagList 40 [mkTag "highway" "residential"]);
        IWayNodeList
          (mkWayNodeList 48 [mkWayNode 1 None; mkWayNode 2 (Some (3, 4))])]).

(** A relation member with its node attached. *)
Definition example_member : RelationMember (@Item grid) :=
  mkRelationMember node 5 "stop"
    (Some (INode (mkObjectMemory 64 (object_with 5 1) "bob" [])
             (Some (10, 20)))).

(** A relation with a member that is only a reference and a member with its
    node attached. *)
Definition example_relation : @Item grid :=
  IRelation
    (mkObjectMemory 200 (set_deleted true (object_with 7 1)) ""
       [IRelationMemberList 96
          [mkRelationMember way 42 "outer" None; example_member]]).

(** ** Invariants of the model *)

(** The combined field holds a value of [object_version_type]. *)
Definition field_in_range {T : Types} (o : Object) : Prop :=
  0 <= m_deleted_and_version o < 2 ^ version_bits.

(** A text without a newline character. *)
Fixpoint no_newline (s : string) : Prop :=
  match s with
  | EmptyString => True
  | String c s' => c <> ascii_of_nat 10 /\ no_newline s'
  end.

(** A text made of lines: each is [p], then a text without newline, then a
    newline. *)
Definition prefixed (p s : string) : Prop :=
  exists ls : list string,
    Forall no_newline ls
    /\ s = texts (map (fun l => p ++ l ++ nl)%string ls).

(** [P] holds of every element of a list. *)
Definition every {A : Type} (P : A -> Prop) : list A -> Prop :=
  fix all (l : list A) : Prop :=
    match l with
    | [] => True
    | x :: rest => P x /\ all rest
    end.

(** The texts stored in an item and in the items nested in it are without
    newline: the keys and values of tags, the user names and the roles. *)
Fixpoint texts_without_newline {G : Geo} (it : Item) : Prop :=
  match it with
  | ITagList tl =>
      every (fun tag => no_newline (key tag) /\ no_newline (value tag))
        (tl_tags tl)
  | IWayNodeList _ => True
  | IRelationMemberList _ members =>
      every
        (fun m =>
           no_newline (rm_role m)
           /\ match rm_resolved_object m with
              | Some object => texts_without_newline object
              | None => True
              end)
        members
  | INode o _ | IWay o | IRelation o =>
      no_newline (om_user o) /\ every texts_without_newline (om_subitems o)
  end.

(** The texts that the absent stream insertions and [to_iso] produce are
    without newline. *)
Definition shows_without_newline {TS : Timestamp} {G : Geo} : Prop :=
  (forall t, no_newline (to_iso t))
  /\ (forall l, no_newline (show_lon l))
  /\ (forall l, no_newline (show_lat l))
  /\ (forall l, no_newline (show_location l))
  /\ (forall t, no_newline (show_item_type t)).

(** The title that the handler of an item passes to [print_title]. *)
Definition title_of {G : Geo} (it : Item) : string :=
  match it with
  | ITagList _ => "TAGS"
  | IWayNodeList _ => "NODES"
  | IRelationMemberList _ _ => "MEMBERS"
  | INode _ _ => "NODE"
  | IWay _ => "WAY"
  | IRelation _ => "RELATION"
  end.

(** [Item::size()] of an item, the size in its header. *)
Definition item_size {G : Geo} (it : Item) : Z :=
  match it with
  | ITagList tl => tl_size tl
  | IWayNodeList wnl => wnl_size wnl
  | IRelationMemberList sz _ => sz
  | INode o _ => om_size o
  | IWay o => om_size o
  | IRelation o => om_size o
  end.

(** What a Dump writes for an item is the title line of the item, then
    lines of the Dump. *)
Definition lines_after_title {T : Types} {TS : Timestamp} {G : Geo}
    {M : Memory} (d : Dump) (it : Item) : Prop :=
  exists rest : string,
    prefixed (m_prefix d) rest
    /\ written d it
       = (output_of (print_title d (title_of it) (item_size it)) ++ rest)%string.

(** ** osmium_convert (examples/osmium_convert.cpp) *)

(** [void print_help()]: what it writes to [std::cout]. *)
Definition print_help : string :=
  ("osmium_convert [OPTIONS] [INFILE [OUTFILE]]" ++ nl ++ nl
   ++ "If INFILE or OUTFILE is not given stdin/stdout is assumed." ++ nl
   ++ "File format is given as suffix in format .TYPE[.ENCODING]." ++ nl
   ++ "Use -f and -t options to force format." ++ nl
   ++ nl ++ "File types:" ++ nl
   ++ "  osm     normal OSM file" ++ nl
   ++ "  osh     OSM file with history information" ++ nl
   ++ nl ++ "File encodings:" ++ nl
   ++ "  (none)  XML encoding" ++ nl
   ++ "  gz      XML encoding compressed with gzip" ++ nl
   ++ "  bz2     XML encoding compressed with bzip2" ++ nl
   ++ "  pbf     binary PBF encoding" ++ nl
   ++ nl ++ "Options:" ++ nl
   ++ "  -h, --help                This help message" ++ nl
   ++ "  -f, --from-format=FORMAT  Input format" ++ nl
   ++ "  -t, --to-format=FORMAT    Output format" ++ nl)%string.

(** How [main] leaves a block: by [exit(status)], or into the next block
    with the values the block has set. *)
Inductive flow (A : Type) : Type :=
| Exit (status : Z)
| Next (a : A).
Arguments Exit {A}.
Arguments Next {A}.

(** [std::string input_format; std::string output_format;] *)
Record formats : Type := mkFormats {
  input_format : string;
  output_format : string
}.

(** What one call of [getopt_long] gives to [main]: the value it returns,
    [optarg], and what the call itself wrote to [std::cerr], which is its
    message about an option it does not know or an argument that is
    missing, as [main] leaves [opterr] as it is. *)
Record getopt_call : Type := mkCall {
  call_value : Z;
  call_optarg : string;
  call_diagnostic : string
}.

(** What a block of [main] wrote to [std::cout] and to [std::cerr], and how
    it was left. *)
Definition run (A : Type) : Type := (string * string * flow A)%type.

(** A block that runs after [diagnostic] was written to [std::cerr]. *)
Definition after_diagnostic {A : Type} (diagnostic : string) (r : run A)
    : run A :=
  match r with
  | (out, err, fl) => (out, (diagnostic ++ err)%string, fl)
  end.

(** The [while (true)] loop of [main] over the options.  [calls] holds the
    successive calls of [getopt_long]; after the last of them [getopt_long]
    returns -1. *)
Fixpoint option_loop (calls : list getopt_call) (f : formats) : run formats :=
  match calls with
  | [] => ("", "", Next f)
  | call :: rest =>
      after_diagnostic (call_diagnostic call)
        (let c := call_value call in
         if c =? -1 then ("", "", Next f)
         else if c =? uchar "h" then (print_help, "", Exit 0)
         else if c =? uchar "f"
         then option_loop rest
                (mkFormats (call_optarg call) (output_format f))
         else if c =? uchar "t"
         then option_loop rest
                (mkFormats (input_format f) (call_optarg call))
         else ("", "", Exit 1))
  end.

(** [std::string input; std::string output;] and the block of [main] that
    sets them from [args], which are [argv[optind]] to [argv[argc - 1]].
    The result is what was written to [std::cerr] and how the block was
    left, with [(input, output)]. *)
Definition positional_arguments (argv0 : string) (args : list string)
    : string * flow (string * string) :=
  let remaining_args := Z.of_nat (List.length args) in
  if remaining_args >? 2
  then (("Usage: " ++ argv0 ++ " [OPTIONS] [INFILE [OUTFILE]]" ++ nl)%string,
        Exit 1)
  else if remaining_args =? 2
  then ("", Next (nth 0 args "", nth 1 args ""))
  else if remaining_args =? 1
  then ("", Next (nth 0 args "", ""))
  else ("", Next ("", "")).

(** The two blocks one after the other, as [main] runs them. *)
Definition read_command_line (argv0 : string) (calls : list getopt_call)
    (args : list string) : run (formats * (string * string)) :=
  match option_loop calls (mkFormats "" "") with
  | (out, err, Exit status) => (out, err, Exit status)
  | (out, err, Next f) =>
      match positional_arguments argv0 args with
      | (err', Exit status) => (out, (err ++ err')%string, Exit status)
      | (err', Next io) => (out, (err ++ err')%string, Next (f, io))
      end
  end.

(** [osmium::io::FileType] is not among the sources: the values that
    [OSMFile::type()] returns, their comparison with [==], of which [!=] is
    the negation, and the two file types that [main] names. *)
Class FileTypes : Type := {
  FileType : Type;
  FileType_eqb : FileType -> FileType -> bool;
  FileType_eqb_eq : forall a b, FileType_eqb a b = true <-> a = b;
  OSM : FileType;
  History : FileType
}.

(** The block of [main] that warns about the pair of file types: what it
    writes to [std::cerr], given [infile.type()] and [outfile.type()]. *)
Definition type_warning {F : FileTypes} (infile_type outfile_type : FileType)
    : string :=
  if FileType_eqb infile_type OSM && FileType_eqb outfile_type History
  then ("Warning! You are converting from an OSM file without history information to one with history information."
        ++ nl ++ "This will almost certainly not do what you want!" ++ nl)%string
  else if FileType_eqb infile_type History && FileType_eqb outfile_type OSM
  then ("Warning! You are converting from an OSM file with history information to one without history information."
        ++ nl ++ "This will almost certainly not do what you want!" ++ nl)%string
  else if negb (FileType_eqb infile_type outfile_type)
  then ("Warning! Source and destination are not of the same type." ++ nl)%string
  else "".

(** Three file types, compared by name. *)
Inductive three_types : Type := type_osm | type_osh | type_other.

Definition three_types_eqb (a b : three_types) : bool :=
  match a, b with
  | type_osm, type_osm | type_osh, type_osh | type_other, type_other => true
  | _, _ => false
  end.

(** * Properties *)

(** ** Bits of the combined field *)

Section VersionBits.

Context {T : Types}.

Lemma deleted_bit_nonneg : 0 <= deleted_bit.
Proof. unfold deleted_bit, version_bits. lia. Qed.

Lemma deleted_bit_mask_pow2 : deleted_bit_mask = 2 ^ deleted_bit.
Proof.
  unfold deleted_bit_mask, wrap.
  rewrite Z.shiftl_1_l.
  apply Z.mod_small. split.
  - apply Z.pow_nonneg. lia.
  - apply Z.pow_lt_mono_r; unfold deleted_bit; try lia.
    pose proof deleted_bit_nonneg. unfold deleted_bit in *. lia.
Qed.

Lemma bit_not_mask_ones : bit_not deleted_bit_mask = Z.ones deleted_bit.
Proof.
  pose proof deleted_bit_nonneg as Hn.
  unfold bit_not, wrap. rewrite deleted_bit_mask_pow2.
  apply Z.bits_inj'. intros i Hi.
  rewrite Z.testbit_mod_pow2 by (unfold version_bits; lia).
  rewrite Z.lnot_spec by assumption.
  rewrite Z.pow2_bits_eqb by assumption.
  rewrite Z.testbit_ones_nonneg by assumption.
  unfold deleted_bit in *.
  destruct (Z.ltb_spec i version_bits), (Z.eqb_spec (version_bits - 1) i),
    (Z.ltb_spec i (version_bits - 1)); simpl; try reflexivity; lia.
Qed.

(** [version()] is the field without its top bit. *)
Lemma version_mod (o : Object) :
  version o = m_deleted_and_version o mod 2 ^ deleted_bit.
Proof.
  unfold version. rewrite bit_not_mask_ones.
  apply Z.land_ones, deleted_bit_nonneg.
Qed.

Lemma land_pow2 (a k : Z) :
  0 <= k -> Z.land a (2 ^ k) = if Z.testbit a k then 2 ^ k else 0.
Proof.
  intros Hk. apply Z.bits_inj'. intros i Hi.
  rewrite Z.land_spec, Z.pow2_bits_eqb by assumption.
  destruct (Z.eqb_spec k i) as [->|Hne].
  - destruct (Z.testbit a i) eqn:E; simpl.
    + now rewrite Z.pow2_bits_true.
    + now rewrite Z.bits_0.
  - rewrite andb_false_r.
    destruct (Z.testbit a k).
    + now rewrite Z.pow2_bits_false.
    + now rewrite Z.bits_0.
Qed.

(** [deleted()] is the top bit of the field. *)
Lemma deleted_testbit (o : Object) :
  deleted o = Z.testbit (m_deleted_and_version o) deleted_bit.
Proof.
  pose proof deleted_bit_nonneg as Hn.
  unfold deleted. rewrite deleted_bit_mask_pow2, land_pow2 by assumption.
  destruct (Z.testbit _ _); simpl; [|reflexivity].
  destruct (Z.eqb_spec (2 ^ deleted_bit) 0) as [E|E]; [|reflexivity].
  pose proof (Z.pow_pos_nonneg 2 deleted_bit). lia.
Qed.

(** The bits of the field after [version(v)]: the top one is kept, the
    others are those of [v]. *)
Lemma set_version_bits (v : Z) (o : Object) (i : Z) :
  0 <= i ->
  Z.testbit (m_deleted_and_version (set_version v o)) i =
  if i =? deleted_bit then Z.testbit (m_deleted_and_version o) i
  else (i <? deleted_bit) && Z.testbit v i.
Proof.
  intros Hi. pose proof deleted_bit_nonneg as Hn.
  unfold set_version, with_deleted_and_version, wrap;
    cbn [m_deleted_and_version].
  rewrite bit_not_mask_ones, deleted_bit_mask_pow2.
  rewrite Z.testbit_mod_pow2 by (unfold version_bits; lia).
  rewrite Z.lor_spec, !Z.land_spec.
  rewrite Z.pow2_bits_eqb, Z.testbit_ones_nonneg by assumption.
  rewrite (Z.eqb_sym deleted_bit i).
  unfold deleted_bit in *.
  destruct (Z.ltb_spec i version_bits), (Z.eqb_spec i (version_bits - 1)),
    (Z.ltb_spec i (version_bits - 1)); simpl;
    rewrite ?andb_true_r, ?andb_false_r, ?orb_false_r; try reflexivity; lia.
Qed.

(** The bits of the field after [deleted(d)], which are also those after
    [visible(!d)]: the top one is [d], the others are kept. *)
Lemma flag_bits (m : Z) (d : bool) (i : Z) :
  0 <= i ->
  Z.testbit
    (wrap version_bits
       (Z.lor (Z.land m (bit_not deleted_bit_mask))
          (wrap version_bits (Z.shiftl (if d then 1 else 0) deleted_bit)))) i =
  if i =? deleted_bit then d else (i <? deleted_bit) && Z.testbit m i.
Proof.
  intros Hi. pose proof deleted_bit_nonneg as Hn.
  assert (Hs : wrap version_bits (Z.shiftl (if d then 1 else 0) deleted_bit)
               = if d then 2 ^ deleted_bit else 0).
  { destruct d.
    - apply deleted_bit_mask_pow2.
    - unfold wrap. now rewrite Z.shiftl_0_l. }
  rewrite Hs, bit_not_mask_ones. unfold wrap.
  rewrite Z.testbit_mod_pow2 by (unfold version_bits; lia).
  rewrite Z.lor_spec, Z.land_spec, Z.testbit_ones_nonneg by assumption.
  assert (Hd : Z.testbit (if d then 2 ^ deleted_bit else 0) i
               = d && (i =? deleted_bit)).
  { destruct d; simpl.
    - rewrite Z.pow2_bits_eqb by assumption. apply Z.eqb_sym.
    - apply Z.bits_0. }
  rewrite Hd. unfold deleted_bit in *.
  destruct (Z.ltb_spec i version_bits), (Z.eqb_spec i (version_bits - 1)),
    (Z.ltb_spec i (version_bits - 1)), d; simpl;
    rewrite ?andb_true_r, ?andb_false_r, ?orb_false_r, ?orb_true_r;
    try reflexivity; lia.
Qed.

Lemma mod_pow2_bits_eq (a b n : Z) :
  0 <= n ->
  (forall i, 0 <= i < n -> Z.testbit a i = Z.testbit b i) ->
  a mod 2 ^ n = b mod 2 ^ n.
Proof.
  intros Hn H. apply Z.bits_inj'. intros i Hi.
  rewrite !Z.testbit_mod_pow2 by assumption.
  destruct (Z.ltb_spec i n); simpl; [apply H; lia | reflexivity].
Qed.

Lemma version_set_version (v : Z) (o : Object) :
  version (set_version v o) = v mod 2 ^ deleted_bit.
Proof.
  rewrite version_mod.
  apply mod_pow2_bits_eq; [apply deleted_bit_nonneg|].
  intros i Hi. rewrite set_version_bits by lia.
  destruct (Z.eqb_spec i deleted_bit); [lia|].
  destruct (Z.ltb_spec i deleted_bit); [reflexivity | lia].
Qed.

Lemma deleted_set_version (v : Z) (o : Object) :
  deleted (set_version v o) = deleted o.
Proof.
  rewrite !deleted_testbit, set_version_bits by apply deleted_bit_nonneg.
  now rewrite Z.eqb_refl.
Qed.

Lemma version_set_deleted (d : bool) (o : Object) :
  version (set_deleted d o) = version o.
Proof.
  rewrite !version_mod.
  apply mod_pow2_bits_eq; [apply deleted_bit_nonneg|].
  intros i Hi. unfold set_deleted, with_deleted_and_version;
    cbn [m_deleted_and_version].
  rewrite flag_bits by lia.
  destruct (Z.eqb_spec i deleted_bit); [lia|].
  destruct (Z.ltb_spec i deleted_bit); [reflexivity | lia].
Qed.

Lemma deleted_set_deleted (d : bool) (o : Object) :
  deleted (set_deleted d o) = d.
Proof.
  rewrite deleted_testbit. unfold set_deleted, with_deleted_and_version;
    cbn [m_deleted_and_version].
  rewrite flag_bits by apply deleted_bit_nonneg.
  now rewrite Z.eqb_refl.
Qed.

Lemma set_visible_set_deleted (b : bool) (o : Object) :
  set_visible b o = set_deleted (negb b) o.
Proof. destruct b; reflexivity. Qed.

Lemma deleted_set_visible (b : bool) (o : Object) :
  deleted (set_visible b o) = negb b.
Proof. rewrite set_visible_set_deleted. apply deleted_set_deleted. Qed.

Lemma visible_set_visible (b : bool) (o : Object) :
  visible (set_visible b o) = b.
Proof. unfold visible. rewrite deleted_set_visible. apply negb_involutive. Qed.

(** Every setter of the combined field leaves it in the range of
    [object_version_type]. *)
Lemma with_deleted_and_version_range (dv : Z) (o : Object) :
  0 <= m_deleted_and_version (with_deleted_and_version dv o)
    < 2 ^ version_bits.
Proof.
  unfold with_deleted_and_version, wrap; cbn [m_deleted_and_version].
  apply Z.mod_pos_bound, Z.pow_pos_nonneg; unfold version_bits; lia.
Qed.

End VersionBits.

(** ** The version number and the deleted flag *)

(** C1: for every object and every version value [v] whose top bit is clear,
    [version(v)] makes [version()] return [v] and leaves [deleted()] as it
    was; [deleted(d)] sets the flag and leaves [version()] as it was, so that
    the version written before is still read after it. *)
Theorem version_deleted_independent {T : Types} (o : Object) (v : Z) :
  0 <= v < 2 ^ deleted_bit ->
  version (set_version v o) = v
  /\ deleted (set_version v o) = deleted o
  /\ (forall d, version (set_deleted d o) = version o)
  /\ (forall d, deleted (set_deleted d o) = d)
  /\ (forall d, version (set_deleted d (set_version v o)) = v)
  /\ (forall d, version (set_version v (set_deleted d o)) = v
                /\ deleted (set_version v (set_deleted d o)) = d).
Proof.
  intros Hv.
  assert (Hm : v mod 2 ^ deleted_bit = v) by now apply Z.mod_small.
  repeat split.
  - now rewrite version_set_version.
  - apply deleted_set_version.
  - intros d. apply version_set_deleted.
  - intros d. apply deleted_set_deleted.
  - intros d. now rewrite version_set_deleted, version_set_version.
  - now rewrite version_set_version.
  - now rewrite deleted_set_version, deleted_set_deleted.
Qed.

Lemma version_deleted_independent_witness :
  0 <= 7 < 2 ^ (@deleted_bit types32)
  /\ @version types32 (set_version 7 (set_deleted true Object_new)) = 7.
Proof.
  assert (H : 0 <= 7 < 2 ^ (@deleted_bit types32))
    by (vm_compute; intuition discriminate).
  split; [exact H|].
  exact (proj1 (@version_deleted_independent types32
                  (set_deleted true Object_new) 7 H)).
Defined.

(** C2: [visible(true)] leaves the same object as [deleted(false)] and
    [visible(false)] the same as [deleted(true)]; the getter [visible()] is
    the negation of [deleted()] in every state, also after either setter. *)
Theorem visible_is_not_deleted {T : Types} (o : Object) :
  set_visible true o = set_deleted false o
  /\ set_visible false o = set_deleted true o
  /\ visible o = negb (deleted o)
  /\ (forall b, visible (set_visible b o) = b
                /\ deleted (set_visible b o) = negb b)
  /\ (forall b, visible (set_deleted b o) = negb b
                /\ deleted (set_deleted b o) = b).
Proof.
  repeat split; try reflexivity.
  - apply visible_set_visible.
  - apply deleted_set_visible.
  - unfold visible. now rewrite deleted_set_deleted.
  - apply deleted_set_deleted.
Qed.


(** ** Comparison of C strings *)

Lemma uchar_inj (c d : ascii) : uchar c = uchar d -> c = d.
Proof.
  unfold uchar. intros H. apply N2Z.inj in H.
  rewrite <- (ascii_N_embedding c), <- (ascii_N_embedding d). now f_equal.
Qed.

Lemma uchar_NUL (c : ascii) : uchar c = 0 -> c = NUL.
Proof. intros H. apply uchar_inj. exact H. Qed.

(** On C strings, [strcmp] returns 0 exactly on equal strings. *)
Lemma strcmp_eq (a b : string) :
  cstring a -> cstring b -> (strcmp a b = 0 <-> a = b).
Proof.
  revert b. induction a as [|c a IH]; intros [|d b] Ha Hb; simpl in *.
  - tauto.
  - split; [|discriminate].
    intros H. destruct Hb as [Hd _]. exfalso. apply Hd, uchar_NUL. lia.
  - split; [|discriminate].
    intros H. destruct Ha as [Hc _]. exfalso. apply Hc, uchar_NUL. lia.
  - destruct Ha as [Hc Ha], Hb as [Hd Hb].
    destruct (Ascii.eqb_spec c d) as [->|Hne].
    + destruct (Ascii.eqb_spec d NUL) as [E|_]; [contradiction|].
      rewrite IH by assumption.
      split; [now intros ->|now intros [= ->]].
    + split.
      * intros H. exfalso. apply Hne, uchar_inj. lia.
      * intros [= E _]. contradiction.
Qed.

Lemma strcmp_eqb (a b : string) :
  cstring a -> cstring b -> (strcmp a b =? 0) = String.eqb a b.
Proof.
  intros Ha Hb. pose proof (strcmp_eq a b Ha Hb) as H.
  destruct (Z.eqb_spec (strcmp a b) 0), (String.eqb_spec a b);
    try reflexivity; tauto.
Qed.

Ltac cstring_literal := simpl; repeat split; discriminate.

(** ** Attributes from text *)

(** C3: on a C string [s], [visible(s)] returns exactly when [s] is "true"
    or "false", then having set the flag to that value; on any other text it
    throws and the object is as it was. *)
Theorem set_visible_str_spec {T : Types} (s : string) (o : Object) :
  cstring s ->
  (returned (set_visible_str s o) = true <-> s = "true" \/ s = "false")
  /\ (s = "true" ->
      set_visible_str s o = Returned (set_visible true o)
      /\ visible (set_visible true o) = true)
  /\ (s = "false" ->
      set_visible_str s o = Returned (set_visible false o)
      /\ visible (set_visible false o) = false)
  /\ (s <> "true" -> s <> "false" ->
      set_visible_str s o
      = Thrown (runtime_error "unknown value for visible attribute") o).
Proof.
  intros Hs. unfold set_visible_str.
  rewrite !strcmp_eqb by (assumption || cstring_literal).
  pose proof (fun b => visible_set_visible b o) as Hv.
  destruct (String.eqb_spec "true" s) as [<-|Ht];
    [|destruct (String.eqb_spec "false" s) as [<-|Hf]]; cbn [returned].
  - intuition (try discriminate; try apply Hv).
  - intuition (try discriminate; try apply Hv).
  - intuition (try discriminate; try congruence).
Qed.

Lemma set_visible_str_spec_witness :
  cstring "yes"
  /\ set_visible_str "yes" Object_new
     = Thrown (runtime_error "unknown value for visible attribute") Object_new
  /\ (returned (set_visible_str "false" Object_new) = true
      <-> "false" = "true" \/ "false" = "false").
Proof.
  split; [cstring_literal|].
  split; [reflexivity|].
  refine (proj1 (set_visible_str_spec "false" Object_new _)).
  cstring_literal.
Defined.

(** C6: on a C string [attr], [set_attribute(attr, value)] is the call of
    the typed setter named by [attr] when [attr] is one of "id", "version",
    "changeset", "timestamp", "uid", "visible"; for every other name it
    returns, without an exception, and the object is as it was. *)
Theorem set_attribute_dispatch {T : Types} {TS : Timestamp}
    (attr value : string) (o : Object) :
  cstring attr ->
  (attr = "id" -> set_attribute attr value o = set_id_str value o)
  /\ (attr = "version" -> set_attribute attr value o = set_version_str value o)
  /\ (attr = "changeset" ->
      set_attribute attr value o = set_changeset_str value o)
  /\ (attr = "timestamp" ->
      set_attribute attr value o = set_timestamp_str value o)
  /\ (attr = "uid" -> set_attribute attr value o = set_uid_str value o)
  /\ (attr = "visible" -> set_attribute attr value o = set_visible_str value o)
  /\ (~ In attr ["id"; "version"; "changeset"; "timestamp"; "uid"; "visible"] ->
      set_attribute attr value o = Returned o).
Proof.
  intros Hattr. unfold set_attribute.
  rewrite !strcmp_eqb by (assumption || cstring_literal).
  repeat split; try (intros ->; reflexivity).
  intros Hout. simpl in Hout.
  repeat match goal with
         | |- context [String.eqb attr ?s] =>
             destruct (String.eqb_spec attr s) as [E|_];
               [exfalso; intuition congruence|]
         end.
  reflexivity.
Qed.

Lemma set_attribute_dispatch_witness :
  cstring "lat"
  /\ set_attribute "lat" "52.5" (object_with 17 3) = Returned (object_with 17 3)
  /\ set_attribute "uid" "12" Object_new = Returned (set_uid 12 Object_new).
Proof.
  assert (H : cstring "lat") by cstring_literal.
  assert (H' : cstring "uid") by cstring_literal.
  split; [exact H|]. split.
  - apply (set_attribute_dispatch "lat" "52.5" (object_with 17 3) H).
    simpl. intuition discriminate.
  - exact (proj1 (proj2 (proj2 (proj2 (proj2
             (set_attribute_dispatch "uid" "12" Object_new H')))))
             eq_refl).
Defined.

(** ** The user identifier *)

(** C7: when [user_id_type] holds every non-negative [int32_t],
    [uid_from_signed(v)] on a 32-bit signed [v] leaves [uid()] equal to 0 for
    negative [v] and to [v] otherwise; so -5 gives 0 and 5 gives 5. *)
Theorem uid_from_signed_clamps {T : Types} (v : Z) (o : Object) :
  31 <= Z.pos user_id_bits ->
  signed_range 32 v ->
  uid (uid_from_signed v o) = (if v <? 0 then 0 else v)
  /\ (v < 0 -> user_is_anonymous (uid_from_signed v o) = true)
  /\ uid (uid_from_signed (-5) o) = 0
  /\ uid (uid_from_signed 5 o) = 5.
Proof.
  intros Hbits [Hlo Hhi].
  unfold user_is_anonymous, uid, uid_from_signed, wrap; cbn [m_uid].
  assert (Hpow : 2 ^ 31 <= 2 ^ Z.pos user_id_bits)
    by (apply Z.pow_le_mono_r; lia).
  change (2 ^ (32 - 1)) with (2 ^ 31) in Hhi.
  assert (H31 : 2 ^ 31 = 2147483648) by reflexivity.
  split; [|split; [|split]].
  - destruct (Z.ltb_spec v 0).
    + apply Z.mod_0_l. lia.
    + apply Z.mod_small. lia.
  - intros Hneg. destruct (Z.ltb_spec v 0); [|lia].
    rewrite Z.mod_0_l by lia. reflexivity.
  - change (-5 <? 0) with true. cbv iota. apply Z.mod_0_l. lia.
  - change (5 <? 0) with false. cbv iota. apply Z.mod_small. lia.
Qed.

Lemma uid_from_signed_clamps_witness :
  31 <= Z.pos (@user_id_bits types32)
  /\ signed_range 32 (-2147483648)
  /\ uid (uid_from_signed (-2147483648) (set_uid 9 Object_new)) = 0.
Proof.
  assert (H1 : 31 <= Z.pos (@user_id_bits types32)) by (simpl; lia).
  assert (H2 : signed_range 32 (-2147483648))
    by (unfold signed_range; simpl; lia).
  split; [exact H1|]. split; [exact H2|].
  exact (proj1 (uid_from_signed_clamps (-2147483648) (set_uid 9 Object_new)
                  H1 H2)).
Defined.

(** ** Ordering *)

Lemma swrap_int (y : Z) :
  exists k : Z,
    swrap int_bits y = y + 4294967296 * k
    /\ - 2147483648 <= swrap int_bits y < 2147483648.
Proof.
  unfold swrap, int_bits.
  change (2 ^ (32 - 1)) with 2147483648. change (2 ^ 32) with 4294967296.
  pose proof (Z.div_mod (y + 2147483648) 4294967296) as Hdm.
  pose proof (Z.mod_pos_bound (y + 2147483648) 4294967296) as Hb.
  exists (- ((y + 2147483648) / 4294967296)). lia.
Qed.

(** On the identifiers that are values of [int] other than the least one,
    [abs] is the absolute value. *)
Lemma abs_Zabs (x : Z) :
  - 2 ^ (int_bits - 1) < x < 2 ^ (int_bits - 1) -> abs x = Z.abs x.
Proof.
  unfold abs. change (2 ^ (int_bits - 1)) with 2147483648. intros H.
  destruct (swrap_int x) as [k [E R]].
  destruct (swrap_int (- swrap int_bits x)) as [k' [E' R']].
  destruct (Z.ltb_spec (swrap int_bits x) 0); lia.
Qed.

(** [abs] does not see the sign of the identifier. *)
Lemma abs_opp (x : Z) : abs (- x) = abs x.
Proof.
  unfold abs.
  destruct (swrap_int x) as [k1 [E1 R1]].
  destruct (swrap_int (- x)) as [k2 [E2 R2]].
  destruct (swrap_int (- swrap int_bits x)) as [k3 [E3 R3]].
  destruct (swrap_int (- swrap int_bits (- x))) as [k4 [E4 R4]].
  destruct (Z.ltb_spec (swrap int_bits x) 0),
    (Z.ltb_spec (swrap int_bits (- x)) 0); lia.
Qed.

Lemma id_object_with {T : Types} (i v : Z) : id (object_with i v) = i.
Proof. reflexivity. Qed.

(** C4: [operator<] is not the stated formula on every pair of objects.
    The identifier 4294967297 is seen by [abs] as 1: the object with that
    identifier compares less than the object with identifier 2, though the
    identifiers differ and its absolute value is the greater one, and the
    object with identifier 2 does not compare less than it, though its
    absolute value is the smaller one. *)
Theorem lt_truncates_identifier :
  abs 4294967297 = 1
  /\ @lt types32 (@object_with types32 4294967297 1) (@object_with types32 2 1)
     = true
  /\ ~ ((@id (@object_with types32 4294967297 1) = @id (@object_with types32 2 1)
         /\ @version types32 (@object_with types32 4294967297 1)
            < @version types32 (@object_with types32 2 1))
        \/ Z.abs (@id (@object_with types32 4294967297 1))
           < Z.abs (@id (@object_with types32 2 1)))
  /\ @lt types32 (@object_with types32 2 1) (@object_with types32 4294967297 1)
     = false
  /\ Z.abs (@id (@object_with types32 2 1))
     < Z.abs (@id (@object_with types32 4294967297 1)).
Proof.
  split; [vm_compute; reflexivity|].
  split; [vm_compute; reflexivity|].
  split.
  - rewrite !id_object_with. intros [[E _]|H]; [discriminate E|].
    vm_compute in H. discriminate H.
  - split; [vm_compute; reflexivity|].
    rewrite !id_object_with. vm_compute. reflexivity.
Qed.

(** ** The tags of an object *)

Section Tags.

Context {G : Geo} {M : Memory}.

Lemma subitem_of_type_find (t : item_type) (dflt : Item) (l : list Item) :
  subitem_of_type t dflt l =
  match find (fun it => item_type_eqb (type it) t) l with
  | Some it => it
  | None => dflt
  end.
Proof.
  induction l as [|it l IH]; simpl; [reflexivity|].
  destruct (item_type_eqb (type it) t); [reflexivity | exact IH].
Qed.

Lemma type_tag_list (it : Item) :
  item_type_eqb (type it) tag_list = true -> exists tl, it = ITagList tl.
Proof.
  destruct it; simpl; try discriminate. intros _. now eexists.
Qed.

(** C5: [tags()] always returns a TagList: the first of the sub-items, in
    their stored order, whose type tag is [tag_list]; when no sub-item has
    that tag, the default-constructed TagList, which is empty. *)
Theorem tags_first_or_empty (o : ObjectMemory Item) :
  exists tl : TagList,
    tags o = Some tl
    /\ match find (fun it => item_type_eqb (type it) tag_list) (om_subitems o) with
       | Some it => it = ITagList tl
       | None => tl = TagList_new /\ tl_tags tl = []
       end.
Proof.
  unfold tags. rewrite subitem_of_type_find.
  destruct (find _ (om_subitems o)) as [it|] eqn:E.
  - apply find_some in E. destruct E as [_ E].
    destruct (type_tag_list it E) as [tl ->].
    exists tl. split; reflexivity.
  - exists TagList_new. repeat split.
Qed.

End Tags.

(** ** Writing to the stream *)

Lemma append_nil_r (s : string) : (s ++ "")%string = s.
Proof. induction s as [|c s IH]; simpl; [reflexivity | now rewrite IH]. Qed.

Lemma append_assoc (a b c : string) :
  (a ++ (b ++ c))%string = ((a ++ b) ++ c)%string.
Proof. induction a as [|x a IH]; simpl; [reflexivity | now rewrite IH]. Qed.

(** An appending action writes its [output_of] after what was written. *)
Lemma appending_output (a : action) :
  appending a -> forall out, a out = Some (out ++ output_of a)%string.
Proof.
  intros [w Hw] out. unfold output_of.
  rewrite (Hw ""). simpl. apply Hw.
Qed.

Lemma appending_put (s : string) : appending (put s).
Proof. exists s. reflexivity. Qed.

Lemma appending_skip : appending skip.
Proof. exists "". intros out. unfold skip. now rewrite append_nil_r. Qed.

Lemma appending_and_then (a b : action) :
  appending a -> appending b -> appending (a ;; b).
Proof.
  intros [wa Ha] [wb Hb]. exists (wa ++ wb)%string. intros out.
  unfold and_then. rewrite Ha, Hb. now rewrite append_assoc.
Qed.

Lemma appending_if (c : bool) (a b : action) :
  appending a -> appending b -> appending (if c then a else b).
Proof. now destruct c. Qed.

Lemma appending_for_each {A : Type} (body : A -> action) (l : list A) :
  (forall x, In x l -> appending (body x)) -> appending (for_each body l).
Proof.
  induction l as [|x l IH]; intros H; simpl.
  - apply appending_skip.
  - apply appending_and_then.
    + apply H. now left.
    + apply IH. intros y Hy. apply H. now right.
Qed.

Lemma output_of_put (s : string) : output_of (put s) = s.
Proof. reflexivity. Qed.

Lemma output_of_skip : output_of skip = "".
Proof. reflexivity. Qed.

Lemma output_of_and_then (a b : action) :
  appending a -> appending b ->
  output_of (a ;; b) = (output_of a ++ output_of b)%string.
Proof.
  intros Ha Hb. unfold output_of at 1, and_then.
  rewrite (appending_output a Ha), (appending_output b Hb). reflexivity.
Qed.

Lemma output_of_for_each {A : Type} (body : A -> action) (l : list A) :
  (forall x, In x l -> appending (body x)) ->
  output_of (for_each body l) = texts (map (fun x => output_of (body x)) l).
Proof.
  induction l as [|x l IH]; intros H; simpl.
  - reflexivity.
  - rewrite output_of_and_then.
    + f_equal. apply IH. intros y Hy. apply H. now right.
    + apply H. now left.
    + apply appending_for_each. intros y Hy. apply H. now right.
Qed.

Create HintDb appending.

#[local] Hint Resolve appending_put appending_skip appending_and_then
  appending_if appending_for_each : appending.

(** ** The handlers of Dump *)

Section DumpProperties.

Context {T : Types} {TS : Timestamp} {G : Geo} {M : Memory}.

Lemma appending_print_title (d : Dump) (title : string) (sz : Z) :
  appending (print_title d title sz).
Proof. unfold print_title. auto with appending. Qed.

Lemma appending_print_meta_fields (d : Dump) (o : ObjectMemory Item) :
  appending (print_meta_fields d o).
Proof. unfold print_meta_fields. auto 10 with appending. Qed.

Lemma appending_print_location (d : Dump) (l : Location) :
  appending (print_location d l).
Proof. unfold print_location. auto with appending. Qed.

Lemma appending_Dump_TagList (d : Dump) (tl : TagList) :
  appending (Dump_TagList d tl).
Proof.
  unfold Dump_TagList.
  auto using appending_print_title with appending.
Qed.

Lemma appending_Dump_WayNodeList (d : Dump) (wnl : WayNodeList) :
  appending (Dump_WayNodeList d wnl).
Proof.
  unfold Dump_WayNodeList.
  apply appending_and_then; [apply appending_print_title|].
  apply appending_for_each. intros wn _. auto with appending.
Qed.

(** What the loop body of the RelationMemberList handler does for one
    member, given the [apply_visitor] it recurses through. *)
Lemma appending_member (d : Dump) (m : RelationMember Item) :
  (forall object, rm_resolved_object m = Some object ->
                  forall d', appending (apply_visitor d' object)) ->
  appending
    (put (m_prefix d ++ "  type=" ++ show_item_type (rm_type m)
          ++ " ref=" ++ show_Z (rm_ref m)
          ++ " role=|" ++ rm_role m ++ "|" ++ nl) ;;
     (if full_member m
      then match get_object m with
           | Some object =>
               apply_visitor (mkDump (m_with_size d) (m_prefix d ++ "  | "))
                 object
           | None => fault
           end
      else skip)).
Proof.
  intros H. apply appending_and_then; [apply appending_put|].
  unfold full_member, get_object.
  destruct (rm_resolved_object m) as [object|].
  - now apply H.
  - apply appending_skip.
Qed.

(** The hypotheses of the nested induction principle of [Item], in the
    form with [In]. *)
Lemma ObjectMemory_all_In (P : Item -> Prop) (o : ObjectMemory Item) :
  ObjectMemory_all Item P o -> forall it, In it (om_subitems o) -> P it.
Proof.
  intros [sz ob user subs Hsubs]. simpl.
  induction Hsubs as [|a Ha l Hl IH]; simpl; intros it Hit.
  - contradiction.
  - destruct Hit as [<-|Hit]; [exact Ha | now apply IH].
Qed.

Lemma RelationMember_all_In (P : Item -> Prop)
    (members : list (RelationMember Item)) :
  list_all (RelationMember Item) (RelationMember_all Item P) members ->
  forall m object,
    In m members -> rm_resolved_object m = Some object -> P object.
Proof.
  intros H. induction H as [|a Ha l Hl IH]; simpl; intros m object Hm E.
  - contradiction.
  - destruct Hm as [<-|Hm]; [|now apply (IH m)].
    destruct Ha as [t r role ro Hro]. simpl in E. subst ro.
    inversion Hro. assumption.
Qed.

Lemma appending_print_meta (d : Dump) (o : ObjectMemory Item) :
  (forall it, In it (om_subitems o) ->
              forall d', appending (apply_visitor d' it)) ->
  appending (print_meta apply_visitor d o).
Proof.
  intros H. unfold print_meta, apply_visitor_range.
  apply appending_and_then; [apply appending_print_meta_fields|].
  apply appending_for_each. intros it Hit. now apply H.
Qed.

(** Applying a Dump to an item never faults and only adds to the stream. *)
Lemma appending_apply_visitor (it : Item) :
  forall d, appending (apply_visitor d it).
Proof.
  induction it as [tl|wnl|sz members IH|o IH location|o IH|o IH]
    using Item_ind; intros d; simpl.
  - apply appending_Dump_TagList.
  - apply appending_Dump_WayNodeList.
  - unfold Dump_RelationMemberList.
    apply appending_and_then; [apply appending_print_title|].
    apply appending_for_each. intros m Hm.
    apply appending_member. intros object Hobj.
    exact (RelationMember_all_In _ _ IH m object Hm Hobj).
  - unfold Dump_Node.
    pose proof (ObjectMemory_all_In _ _ IH) as Hsub.
    auto using appending_print_title, appending_print_meta,
      appending_print_location with appending.
  - unfold Dump_Way.
    pose proof (ObjectMemory_all_In _ _ IH) as Hsub.
    auto using appending_print_title, appending_print_meta with appending.
  - unfold Dump_Relation.
    pose proof (ObjectMemory_all_In _ _ IH) as Hsub.
    auto using appending_print_title, appending_print_meta with appending.
Qed.

Lemma apply_visitor_written (d : Dump) (it : Item) (out : ostream) :
  apply_visitor d it out = Some (out ++ written d it)%string.
Proof. apply appending_output, appending_apply_visitor. Qed.

Lemma output_of_print_meta (d : Dump) (o : ObjectMemory Item) :
  output_of (print_meta apply_visitor d o) =
  (output_of (print_meta_fields d o)
   ++ texts (map (written (mkDump (m_with_size d) (m_prefix d ++ "  ")))
               (om_subitems o)))%string.
Proof.
  unfold print_meta, apply_visitor_range.
  rewrite output_of_and_then.
  - f_equal. apply output_of_for_each.
    intros it _. apply appending_apply_visitor.
  - apply appending_print_meta_fields.
  - apply appending_for_each. intros it _. apply appending_apply_visitor.
Qed.

Lemma appending_print_meta_all (d : Dump) (o : ObjectMemory Item) :
  appending (print_meta apply_visitor d o).
Proof.
  apply appending_print_meta. intros it _ d'. apply appending_apply_visitor.
Qed.

Lemma written_IWay (d : Dump) (o : ObjectMemory Item) :
  written d (IWay o) =
  ((output_of (print_title d "WAY" (om_size o))
    ++ output_of (print_meta_fields d o))
   ++ texts (map (written (mkDump (m_with_size d) (m_prefix d ++ "  ")))
               (om_subitems o)))%string.
Proof.
  unfold written at 1. simpl apply_visitor. unfold Dump_Way.
  rewrite output_of_and_then, output_of_print_meta
    by (apply appending_print_title || apply appending_print_meta_all).
  apply append_assoc.
Qed.

Lemma written_IRelation (d : Dump) (o : ObjectMemory Item) :
  written d (IRelation o) =
  ((output_of (print_title d "RELATION" (om_size o))
    ++ output_of (print_meta_fields d o))
   ++ texts (map (written (mkDump (m_with_size d) (m_prefix d ++ "  ")))
               (om_subitems o)))%string.
Proof.
  unfold written at 1. simpl apply_visitor. unfold Dump_Relation.
  rewrite output_of_and_then, output_of_print_meta
    by (apply appending_print_title || apply appending_print_meta_all).
  apply append_assoc.
Qed.

Lemma written_INode (d : Dump) (o : ObjectMemory Item) (location : Location) :
  written d (INode o location) =
  (((output_of (print_title d "NODE" (om_size o))
     ++ output_of (print_meta_fields d o))
    ++ texts (map (written (mkDump (m_with_size d) (m_prefix d ++ "  ")))
                (om_subitems o)))
   ++ output_of (print_location d location))%string.
Proof.
  unfold written at 1. simpl apply_visitor. unfold Dump_Node.
  rewrite output_of_and_then, output_of_and_then, output_of_print_meta;
    auto using appending_print_title, appending_print_meta_all,
      appending_print_location, appending_and_then.
  now rewrite <- !append_assoc.
Qed.

(** C8: applied to a Way, a Relation or a Node, the Dump first writes the
    title and the metadata of the object and then what applying a Dump, with
    a longer prefix, writes for each sub-item, in their stored order (for a
    Node the location follows the sub-items).  For a Way that stores a
    TagList and then a WayNodeList this is the Way, then the TagList
    handler, then the WayNodeList handler, as in the run on
    [example_way]. *)
Theorem dump_object_then_subitems (d : Dump) (o : ObjectMemory Item)
    (location : Location) (out : ostream) :
  let d' := mkDump (m_with_size d) (m_prefix d ++ "  ") in
  let header title :=
    (output_of (print_title d title (om_size o))
     ++ output_of (print_meta_fields d o))%string in
  let subitems := texts (map (written d') (om_subitems o)) in
  apply_visitor d (IWay o) out = Some (out ++ header "WAY" ++ subitems)%string
  /\ apply_visitor d (IRelation o) out
     = Some (out ++ header "RELATION" ++ subitems)%string
  /\ apply_visitor d (INode o location) out
     = Some (out ++ header "NODE" ++ subitems
             ++ output_of (print_location d location))%string
  /\ (forall sz ob user tl wnl,
        apply_visitor d
          (IWay (mkObjectMemory sz ob user [ITagList tl; IWayNodeList wnl]))
          out
        = Some (out
                ++ (output_of (print_title d "WAY" sz)
                    ++ output_of
                         (print_meta_fields d
                            (mkObjectMemory sz ob user
                               [ITagList tl; IWayNodeList wnl])))
                ++ output_of (Dump_TagList d' tl)
                ++ output_of (Dump_WayNodeList d' wnl))%string)
  /\ @apply_visitor types32 seconds grid (mkDump true "") example_way ""
     = Some
         (texts
            (map (fun line => line ++ nl)%string
               ["WAY: [120]";
                "  id=42";
                "  version=2";
                "  uid=3";
                "  user=|alice|";
                "  changeset=0";
                "  timestamp=0";
                "  visible=yes";
                "  TAGS: [40]";
                "    k=|highway| v=|residential|";
                "  NODES: [48]";
                "    ref=1";
                "    ref=2 pos=(3,4)"])).
Proof.
  intros d' header subitems. unfold header, subitems, d'.
  split; [|split; [|split; [|split]]].
  - rewrite apply_visitor_written, written_IWay. reflexivity.
  - rewrite apply_visitor_written, written_IRelation. reflexivity.
  - rewrite apply_visitor_written, written_INode.
    now rewrite <- !append_assoc.
  - intros sz ob user tl wnl.
    rewrite apply_visitor_written, written_IWay. simpl.
    now rewrite append_nil_r.
  - vm_compute. reflexivity.
Qed.

(** C9: for a RelationMemberList the Dump writes the title and then, for
    each member in order, the line of the member followed, exactly when
    [full_member()] is true, by what applying a Dump writes for the object
    that [get_object()] returns; it never faults, as [get_object()] is
    called only on members that have their object, and a member without it
    contributes its line alone, as in the run on [example_relation]. *)
Theorem dump_members_checks_presence (d : Dump) (sz : Z)
    (members : list (RelationMember Item)) (out : ostream) :
  let d' := mkDump (m_with_size d) (m_prefix d ++ "  | ") in
  let line m :=
    (m_prefix d ++ "  type=" ++ show_item_type (rm_type m)
     ++ " ref=" ++ show_Z (rm_ref m)
     ++ " role=|" ++ rm_role m ++ "|" ++ nl)%string in
  let member_text (m : RelationMember Item) :=
    (line m
     ++ (if full_member m
         then match get_object m with
              | Some object => written d' object
              | None => ""
              end
         else ""))%string in
  apply_visitor d (IRelationMemberList sz members) out
  = Some (out ++ output_of (print_title d "MEMBERS" sz)
          ++ texts (map member_text members))%string
  /\ (forall m : RelationMember Item,
        full_member m = true -> exists object, get_object m = Some object)
  /\ (forall m : RelationMember Item,
        full_member m = false -> get_object m = None /\ member_text m = line m)
  /\ @apply_visitor types32 seconds grid (mkDump false "> ") example_relation ""
     = Some
         (texts
            (map (fun line => line ++ nl)%string
               ["> RELATION:";
                ">   id=7";
                ">   version=1";
                ">   uid=0";
                ">   user=||";
                ">   changeset=0";
                ">   timestamp=0";
                ">   visible=no";
                ">   MEMBERS:";
                ">     type=w ref=42 role=|outer|";
                ">     type=n ref=5 role=|stop|";
                ">     | NODE:";
                ">     |   id=5";
                ">     |   version=1";
                ">     |   uid=0";
                ">     |   user=|bob|";
                ">     |   changeset=0";
                ">     |   timestamp=0";
                ">     |   visible=yes";
                ">     |   lon=10";
                ">     |   lat=20"])).
Proof.
  intros d' line member_text.
  split; [|split; [|split]].
  - rewrite apply_visitor_written. unfold written. simpl apply_visitor.
    unfold Dump_RelationMemberList.
    rewrite output_of_and_then.
    + do 3 f_equal.
      rewrite output_of_for_each.
      * f_equal. apply map_ext. intros m. unfold member_text, line.
        rewrite output_of_and_then; [rewrite output_of_put; f_equal| |].
        -- unfold full_member, get_object.
           destruct (rm_resolved_object m); reflexivity.
        -- apply appending_put.
        -- unfold full_member, get_object.
           destruct (rm_resolved_object m);
             [apply appending_apply_visitor | apply appending_skip].
      * intros m _. apply appending_member.
        intros object _ d0. apply appending_apply_visitor.
    + apply appending_print_title.
    + apply appending_for_each. intros m _. apply appending_member.
      intros object _ d0. apply appending_apply_visitor.
  - intros m. unfold full_member, get_object.
    destruct (rm_resolved_object m) as [object|]; [now exists object|].
    discriminate.
  - intros m. unfold member_text, full_member, get_object.
    destruct (rm_resolved_object m); [discriminate|].
    intros _. split; [reflexivity | apply append_nil_r].
  - vm_compute. reflexivity.
Qed.

End DumpProperties.

Lemma dump_members_checks_presence_witness :
  full_member example_member = true
  /\ exists object : @Item grid, get_object example_member = Some object.
Proof.
  assert (H : full_member example_member = true) by reflexivity.
  split; [exact H|].
  exact (proj1 (proj2
           (@dump_members_checks_presence types32 seconds grid
              (mkDump true "") 96 [example_member] ""))
           example_member H).
Defined.

(** * Further properties of the code *)

(** ** The order on objects *)

(** X1: [operator<] is a strict partial order: no object is less than
    itself, two objects are never each less than the other, and the order is
    transitive. *)
Theorem lt_strict_order {T : Types} (a b c : Object) :
  lt a a = false
  /\ (lt a b = true -> lt b a = false)
  /\ (lt a b = true -> lt b c = true -> lt a c = true).
Proof.
  unfold lt.
  generalize (abs (id a)) (abs (id b)) (abs (id c)) (eq_refl (abs (id a)))
    (fun E : id a = id b => f_equal abs E)
    (fun E : id b = id c => f_equal abs E).
  intros x y z _ Hxy Hyz.
  split; [|split].
  - rewrite Z.eqb_refl, !Z.ltb_irrefl. reflexivity.
  - rewrite (Z.eqb_sym (id b) (id a)).
    destruct (Z.eqb_spec (id a) (id b)) as [E|E];
      [specialize (Hxy E)|];
      destruct (Z.ltb_spec (version a) (version b)),
        (Z.ltb_spec (version b) (version a)),
        (Z.ltb_spec x y), (Z.ltb_spec y x);
      simpl; try reflexivity; try discriminate; lia.
  - destruct (Z.eqb_spec (id a) (id b)) as [E1|E1];
      [specialize (Hxy E1)|];
      (destruct (Z.eqb_spec (id b) (id c)) as [E2|E2];
       [specialize (Hyz E2)|]);
      (destruct (Z.eqb_spec (id a) (id c)) as [E3|E3]; [|try congruence]);
      destruct (Z.ltb_spec (version a) (version b)),
        (Z.ltb_spec (version b) (version c)),
        (Z.ltb_spec (version a) (version c)),
        (Z.ltb_spec x y), (Z.ltb_spec y z), (Z.ltb_spec x z);
      simpl; try reflexivity; try discriminate; lia.
Qed.

Lemma lt_strict_order_witness :
  lt (object_with 3 1) (object_with 3 2) = true
  /\ lt (object_with 3 2) (object_with (-4) 0) = true
  /\ lt (object_with 3 1) (object_with (-4) 0) = true.
Proof.
  assert (H1 : lt (object_with 3 1) (object_with 3 2) = true)
    by (vm_compute; reflexivity).
  assert (H2 : lt (object_with 3 2) (object_with (-4) 0) = true)
    by (vm_compute; reflexivity).
  split; [exact H1|]. split; [exact H2|].
  exact (proj2 (proj2 (@lt_strict_order types32 (object_with 3 1)
                         (object_with 3 2) (object_with (-4) 0))) H1 H2).
Defined.

Lemma version_object_with {T : Types} (i v : Z) :
  0 <= v < 2 ^ deleted_bit -> version (object_with i v) = v.
Proof.
  intros Hv. unfold object_with.
  rewrite version_set_version. now apply Z.mod_small.
Qed.

(** X2: [operator<] is not a strict weak ordering.  For an identifier [i]
    other than 0 and versions [v1 < v3], the object with identifier [-i] is
    neither less nor greater than the object [(i, v1)] and neither less nor
    greater than [(i, v3)], whatever its version, and yet [(i, v1)] is less
    than [(i, v3)]. *)
Theorem lt_incomparability_not_transitive {T : Types} (i v1 v2 v3 : Z) :
  i <> 0 ->
  - 2 ^ (object_id_bits - 1) < i < 2 ^ (object_id_bits - 1) ->
  0 <= v1 < v3 ->
  v3 < 2 ^ deleted_bit ->
  lt (object_with i v1) (object_with (- i) v2) = false
  /\ lt (object_with (- i) v2) (object_with i v1) = false
  /\ lt (object_with (- i) v2) (object_with i v3) = false
  /\ lt (object_with i v3) (object_with (- i) v2) = false
  /\ lt (object_with i v1) (object_with i v3) = true.
Proof.
  intros Hi Hrange Hv Hv3. unfold lt.
  rewrite !id_object_with.
  rewrite !abs_opp, Z.ltb_irrefl, Z.eqb_refl.
  rewrite (version_object_with i v1), (version_object_with i v3) by lia.
  assert (E1 : (i =? - i) = false) by (apply Z.eqb_neq; lia).
  assert (E2 : (- i =? i) = false) by (apply Z.eqb_neq; lia).
  rewrite E1, E2. simpl.
  repeat split. rewrite orb_false_r. apply Z.ltb_lt. lia.
Qed.

Lemma lt_incomparability_not_transitive_witness :
  lt (object_with 5 1) (object_with (-5) 9) = false
  /\ lt (object_with (-5) 9) (object_with 5 2) = false
  /\ lt (object_with 5 1) (object_with 5 2) = true.
Proof.
  assert (H1 : 5 <> 0) by discriminate.
  assert (H2 : - 2 ^ (object_id_bits - 1) < 5 < 2 ^ (object_id_bits - 1))
    by (vm_compute; intuition discriminate).
  assert (H3 : 0 <= 1 < 2) by lia.
  assert (H4 : 2 < 2 ^ (@deleted_bit types32)) by (vm_compute; reflexivity).
  pose proof (@lt_incomparability_not_transitive types32 5 1 9 2 H1 H2 H3 H4)
    as H.
  split; [exact (proj1 H)|].
  split; [exact (proj1 (proj2 (proj2 H)))|].
  exact (proj2 (proj2 (proj2 (proj2 H)))).
Defined.

(** ** The combined field as a whole *)

Section CombinedField.

Context {T : Types} {TS : Timestamp}.

Lemma Object_eq (a b : Object) :
  m_id a = m_id b ->
  m_deleted_and_version a = m_deleted_and_version b ->
  m_timestamp a = m_timestamp b ->
  m_uid a = m_uid b ->
  m_changeset a = m_changeset b ->
  a = b.
Proof. destruct a, b; simpl; intros; subst; reflexivity. Qed.

Lemma set_deleted_bits (d : bool) (o : Object) (i : Z) :
  0 <= i ->
  Z.testbit (m_deleted_and_version (set_deleted d o)) i =
  if i =? deleted_bit then d
  else (i <? deleted_bit) && Z.testbit (m_deleted_and_version o) i.
Proof. intros Hi. now apply flag_bits. Qed.

Lemma field_decompose (o : Object) :
  field_in_range o ->
  m_deleted_and_version o
  = version o + (if deleted o then 2 ^ deleted_bit else 0).
Proof.
  unfold field_in_range. intros Hr.
  pose proof deleted_bit_nonneg as Hn.
  rewrite version_mod, deleted_testbit.
  assert (Hpow : 2 ^ version_bits = 2 * 2 ^ deleted_bit).
  { unfold deleted_bit.
    replace version_bits with (Z.succ (version_bits - 1)) at 1 by lia.
    now rewrite Z.pow_succ_r. }
  assert (Hpos : 0 < 2 ^ deleted_bit) by (apply Z.pow_pos_nonneg; lia).
  pose proof (Z.testbit_spec' (m_deleted_and_version o) deleted_bit Hn) as Hb.
  pose proof (Z.div_mod (m_deleted_and_version o) (2 ^ deleted_bit)) as Hdm.
  assert (Hq : 0 <= m_deleted_and_version o / 2 ^ deleted_bit < 2).
  { split.
    - apply Z.div_pos; lia.
    - apply Z.div_lt_upper_bound; lia. }
  rewrite Z.mod_small in Hb by lia.
  destruct (Z.testbit (m_deleted_and_version o) deleted_bit); simpl in Hb; lia.
Qed.

(** X4: when the combined fields of two objects are in the range of
    [object_version_type], each is [version()] plus the weight of the top bit
    if [deleted()], with [version()] below that weight; so the two getters
    give the field back, and objects on which [version()] and [deleted()]
    agree hold the same combined field. *)
Theorem combined_field_from_getters (a b : Object) :
  field_in_range a ->
  field_in_range b ->
  m_deleted_and_version a
  = version a + (if deleted a then 2 ^ deleted_bit else 0)
  /\ 0 <= version a < 2 ^ deleted_bit
  /\ (version a = version b -> deleted a = deleted b ->
      m_deleted_and_version a = m_deleted_and_version b).
Proof.
  intros Ha Hb.
  split; [now apply field_decompose|]. split.
  - rewrite version_mod. apply Z.mod_pos_bound, Z.pow_pos_nonneg;
      [lia | apply deleted_bit_nonneg].
  - intros Hv Hd.
    rewrite (field_decompose a Ha), (field_decompose b Hb), Hv, Hd.
    reflexivity.
Qed.


(** X5: the later write wins and the two setters of the combined field
    commute: [version(v1).version(v2)] leaves the object that [version(v2)]
    leaves, [deleted(d1).deleted(d2)] the one that [deleted(d2)] leaves, and
    [deleted(d).version(v)] the one that [version(v).deleted(d)] leaves. *)
Theorem combined_field_setters_compose (o : Object) (v1 v2 : Z)
    (d1 d2 : bool) :
  set_version v2 (set_version v1 o) = set_version v2 o
  /\ set_deleted d2 (set_deleted d1 o) = set_deleted d2 o
  /\ set_version v1 (set_deleted d1 o) = set_deleted d1 (set_version v1 o).
Proof.
  pose proof deleted_bit_nonneg as Hn.
  repeat split; apply Object_eq; try reflexivity;
    apply Z.bits_inj'; intros i Hi;
    rewrite ?set_version_bits, ?set_deleted_bits by assumption;
    rewrite ?set_version_bits, ?set_deleted_bits by assumption;
    destruct (Z.eqb_spec i deleted_bit), (Z.ltb_spec i deleted_bit);
    simpl; try reflexivity; lia.
Qed.

End CombinedField.

Lemma combined_field_from_getters_witness :
  field_in_range (set_deleted true (set_version 3 Object_new))
  /\ field_in_range (set_version 3 (set_deleted true (set_uid 8 Object_new)))
  /\ m_deleted_and_version (set_deleted true (set_version 3 Object_new))
     = 3 + 2 ^ 31.
Proof.
  assert (Ha : field_in_range (set_deleted true (set_version 3 Object_new)))
    by (vm_compute; split; [discriminate | reflexivity]).
  assert (Hb : field_in_range
                 (set_version 3 (set_deleted true (set_uid 8 Object_new))))
    by (vm_compute; split; [discriminate | reflexivity]).
  split; [exact Ha|]. split; [exact Hb|].
  exact (proj1 (combined_field_from_getters _ _ Ha Hb)).
Defined.

(** ** Attributes from text, as a whole *)

Section Attributes.

Context {T : Types} {TS : Timestamp}.

Lemma call_with_thrown (arg : exception + Z) (setter : Z -> Object -> Object)
    (o : Object) (e : exception) (o' : Object) :
  call_with arg setter o = Thrown e o' -> o' = o.
Proof. destruct arg; simpl; intros H; now inversion H. Qed.

Lemma call_with_returned (arg : exception + Z)
    (setter : Z -> Object -> Object) (o o' : Object) :
  call_with arg setter o = Returned o' -> exists x, o' = setter x o.
Proof. destruct arg as [e|x]; simpl; intros H; inversion H. now exists x. Qed.

Lemma set_visible_str_thrown (s : string) (o : Object) (e : exception)
    (o' : Object) :
  set_visible_str s o = Thrown e o' -> o' = o.
Proof.
  unfold set_visible_str.
  destruct (strcmp "true" s =? 0); [discriminate|].
  destruct (strcmp "false" s =? 0); [discriminate|].
  intros H. now inversion H.
Qed.

Lemma set_visible_str_returned (s : string) (o o' : Object) :
  set_visible_str s o = Returned o' -> exists b, o' = set_visible b o.
Proof.
  unfold set_visible_str.
  destruct (strcmp "true" s =? 0);
    [intros H; inversion H; now exists true|].
  destruct (strcmp "false" s =? 0);
    [intros H; inversion H; now exists false | discriminate].
Qed.

(** X6: when [set_attribute] throws, for whatever name and value, the
    object is as it was before the call: the value is converted before
    anything is written. *)
Theorem set_attribute_throw_keeps_object (attr value : string) (o : Object)
    (e : exception) (o' : Object) :
  set_attribute attr value o = Thrown e o' -> o' = o.
Proof.
  unfold set_attribute, set_id_str, set_version_str, set_changeset_str,
    set_timestamp_str, set_uid_str.
  repeat match goal with
         | |- context [if ?c then _ else _] => destruct c
         end;
    try apply call_with_thrown; try apply set_visible_str_thrown.
  discriminate.
Qed.

(** X7: a call of [set_attribute] that returns changes at most what its
    name stands for: each getter other than the one named by [attr] returns
    what it returned before; "version" leaves [deleted()] alone, even for a
    value with the top bit set, and "visible" leaves [version()] alone. *)
Theorem set_attribute_changes_only_its_field (attr value : string)
    (o o' : Object) :
  cstring attr ->
  set_attribute attr value o = Returned o' ->
  (attr <> "id" -> id o' = id o)
  /\ (attr <> "version" -> version o' = version o)
  /\ (attr <> "visible" -> deleted o' = deleted o)
  /\ (attr <> "changeset" -> changeset o' = changeset o)
  /\ (attr <> "timestamp" -> timestamp o' = timestamp o)
  /\ (attr <> "uid" -> uid o' = uid o).
Proof.
  intros Hattr. unfold set_attribute.
  rewrite !strcmp_eqb by (assumption || cstring_literal).
  unfold set_id_str, set_version_str, set_changeset_str, set_timestamp_str,
    set_uid_str.
  repeat match goal with
         | |- context [String.eqb attr ?s] =>
             destruct (String.eqb_spec attr s)
         end;
    intros H;
    try (apply call_with_returned in H; destruct H as [x ->]);
    try (apply set_visible_str_returned in H; destruct H as [b ->]);
    try (inversion H; subst o');
    repeat split; intros; try reflexivity; try contradiction;
    try apply deleted_set_version;
    try (rewrite set_visible_set_deleted; apply version_set_deleted).
Qed.

End Attributes.

Lemma set_attribute_throw_keeps_object_witness :
  set_attribute "visible" "yes" (object_with 4 2)
  = Thrown (runtime_error "unknown value for visible attribute")
      (object_with 4 2)
  /\ object_with 4 2 = object_with 4 2.
Proof.
  assert (H : set_attribute "visible" "yes" (object_with 4 2)
              = Thrown (runtime_error "unknown value for visible attribute")
                  (object_with 4 2)) by reflexivity.
  split; [exact H|].
  exact (set_attribute_throw_keeps_object _ _ _ _ _ H).
Defined.

Lemma set_attribute_changes_only_its_field_witness :
  cstring "version"
  /\ set_attribute "version" "2147483653" (set_deleted false Object_new)
     = Returned (set_version 2147483653 (set_deleted false Object_new))
  /\ deleted (set_version 2147483653 (set_deleted false Object_new)) = false.
Proof.
  assert (H1 : cstring "version") by cstring_literal.
  assert (H2 : set_attribute "version" "2147483653"
                 (set_deleted false Object_new)
               = Returned
                   (set_version 2147483653 (set_deleted false Object_new)))
    by reflexivity.
  split; [exact H1|]. split; [exact H2|].
  rewrite (proj1 (proj2 (proj2
             (set_attribute_changes_only_its_field _ _ _ _ H1 H2)))).
  - reflexivity.
  - discriminate.
Defined.

(** ** The user identifier, further *)

(** X8: when [user_id_type] holds every non-negative [int32_t],
    [uid_from_signed(v)] on a 32-bit signed [v] leaves the object that
    [uid(v)] leaves for [v >= 0] and the one that [uid(0)] leaves for
    [v < 0]; the user is then anonymous exactly when [v <= 0]. *)
Theorem uid_from_signed_as_uid {T : Types} (v : Z) (o : Object) :
  31 <= Z.pos user_id_bits ->
  signed_range 32 v ->
  uid_from_signed v o = set_uid (Z.max 0 v) o
  /\ user_is_anonymous (uid_from_signed v o) = (v <=? 0).
Proof.
  intros Hbits [Hlo Hhi].
  assert (Hpow : 2 ^ 31 <= 2 ^ Z.pos user_id_bits)
    by (apply Z.pow_le_mono_r; lia).
  change (2 ^ (32 - 1)) with (2 ^ 31) in Hhi.
  assert (E : wrap (Z.pos user_id_bits) (if v <? 0 then 0 else v)
              = Z.max 0 v).
  { unfold wrap. destruct (Z.ltb_spec v 0).
    - rewrite Z.mod_0_l by lia. lia.
    - rewrite Z.mod_small by lia. lia. }
  unfold user_is_anonymous, uid_from_signed, set_uid; cbn [m_uid].
  rewrite E. split; [reflexivity|].
  destruct (Z.eqb_spec (Z.max 0 v) 0), (Z.leb_spec v 0); try reflexivity; lia.
Qed.

Lemma uid_from_signed_as_uid_witness :
  31 <= Z.pos (@user_id_bits types32)
  /\ signed_range 32 0
  /\ user_is_anonymous (uid_from_signed 0 (set_uid 9 Object_new)) = true.
Proof.
  assert (H1 : 31 <= Z.pos (@user_id_bits types32)) by (simpl; lia).
  assert (H2 : signed_range 32 0) by (unfold signed_range; simpl; lia).
  split; [exact H1|]. split; [exact H2|].
  exact (proj2 (uid_from_signed_as_uid 0 (set_uid 9 Object_new) H1 H2)).
Defined.

(** ** The text that a Dump writes *)

Lemma texts_app (l1 l2 : list string) :
  texts (l1 ++ l2) = (texts l1 ++ texts l2)%string.
Proof.
  induction l1 as [|x l1 IH]; simpl; [reflexivity|].
  now rewrite IH, append_assoc.
Qed.

Lemma no_newline_app (a b : string) :
  no_newline a -> no_newline b -> no_newline (a ++ b).
Proof.
  induction a as [|c a IH]; simpl; [tauto|].
  intros [Hc Ha] Hb. split; [exact Hc | now apply IH].
Qed.

Lemma no_newline_show_Z (z : Z) : no_newline (show_Z z).
Proof.
  assert (H : forall d, no_newline (NilEmpty.string_of_uint d))
    by (induction d; simpl; repeat split; try discriminate; assumption).
  assert (H0 : forall d, no_newline (NilZero.string_of_uint d))
    by (intros [| | | | | | | | | |]; try apply H;
        simpl; repeat split; discriminate).
  unfold show_Z. destruct (Z.to_int z); simpl; [apply H0|].
  split; [discriminate | apply H0].
Qed.

Lemma every_In {A : Type} (P : A -> Prop) (l : list A) :
  every P l -> forall x, In x l -> P x.
Proof.
  induction l as [|y l IH]; simpl; intros H x Hx; [contradiction|].
  destruct H as [Hy Hl]. destruct Hx as [<-|Hx]; [exact Hy | now apply IH].
Qed.

(** A text without newline, from the parts it is appended from. *)
Ltac no_newline_tac :=
  repeat match goal with
         | |- no_newline (if ?c then _ else _) => destruct c
         | |- no_newline (_ ++ _)%string => apply no_newline_app
         | |- no_newline (String _ _) =>
             cbn [no_newline]; split; [discriminate|]
         end;
  first [ assumption
        | exact I
        | apply no_newline_show_Z
        | match goal with
          | H : forall _, no_newline _ |- _ => apply H
          end
        | cbn; repeat split; discriminate ].

Lemma prefixed_nil (p : string) : prefixed p "".
Proof. exists []. split; [constructor | reflexivity]. Qed.

Lemma prefixed_app (p a b : string) :
  prefixed p a -> prefixed p b -> prefixed p (a ++ b).
Proof.
  intros [la [Ha ->]] [lb [Hb ->]]. exists (la ++ lb)%list. split.
  - apply Forall_app. now split.
  - now rewrite map_app, texts_app.
Qed.

Lemma prefixed_line (p l s : string) :
  no_newline l -> s = (p ++ l ++ nl)%string -> prefixed p s.
Proof.
  intros Hl ->. exists [l]. split; [now constructor|].
  simpl. now rewrite append_nil_r.
Qed.

Lemma line_end_app (a b : string) :
  no_newline a ->
  (exists l, no_newline l /\ b = (l ++ nl)%string) ->
  exists l, no_newline l /\ (a ++ b)%string = (l ++ nl)%string.
Proof.
  intros Ha [l [Hl ->]]. exists (a ++ l)%string. split.
  - now apply no_newline_app.
  - apply append_assoc.
Qed.

Lemma line_end_nl : exists l, no_newline l /\ nl = (l ++ nl)%string.
Proof. exists "". split; [exact I | reflexivity]. Qed.

Lemma prefixed_line_body (p body : string) :
  (exists l, no_newline l /\ body = (l ++ nl)%string) ->
  prefixed p (p ++ body).
Proof. intros [l [Hl ->]]. now apply (prefixed_line p l). Qed.

(** A line of a Dump: its prefix, then pieces of text without newline, then
    a newline. *)
Ltac prefixed_line_tac :=
  apply prefixed_line_body;
  repeat (apply line_end_app; [no_newline_tac|]);
  apply line_end_nl.

Lemma prefixed_weaken (p q s : string) :
  no_newline q -> prefixed (p ++ q) s -> prefixed p s.
Proof.
  intros Hq [ls [Hls ->]]. exists (map (fun l => q ++ l)%string ls). split.
  - apply Forall_map. revert Hls. apply Forall_impl.
    intros l Hl. now apply no_newline_app.
  - rewrite map_map. f_equal. apply map_ext. intros l.
    now rewrite <- !append_assoc.
Qed.

Lemma prefixed_texts {A : Type} (p : string) (g : A -> string) (l : list A) :
  (forall x, In x l -> prefixed p (g x)) -> prefixed p (texts (map g l)).
Proof.
  induction l as [|x l IH]; intros H; simpl.
  - apply prefixed_nil.
  - apply prefixed_app; [apply H; now left|].
    apply IH. intros y Hy. apply H. now right.
Qed.

Section DumpText.

Context {T : Types} {TS : Timestamp} {G : Geo} {M : Memory}.

Lemma output_of_print_title (d : Dump) (title : string) (sz : Z) :
  output_of (print_title d title sz) =
  (m_prefix d
   ++ (title ++ ":"
       ++ (if m_with_size d then " [" ++ show_Z sz ++ "]" else ""))
   ++ nl)%string.
Proof.
  unfold print_title.
  rewrite !output_of_and_then by auto with appending.
  rewrite !output_of_put.
  destruct (m_with_size d).
  - rewrite output_of_put. now rewrite <- !append_assoc.
  - rewrite output_of_skip. now rewrite <- !append_assoc.
Qed.

Lemma output_of_Dump_TagList (d : Dump) (tl : TagList) :
  output_of (Dump_TagList d tl) =
  (output_of (print_title d "TAGS" (tl_size tl))
   ++ texts (map (fun tag =>
                    m_prefix d ++ "  k=|" ++ key tag ++ "| v=|" ++ value tag
                    ++ "|" ++ nl)
               (tl_tags tl)))%string.
Proof.
  unfold Dump_TagList.
  rewrite output_of_and_then
    by auto using appending_print_title with appending.
  f_equal. apply output_of_for_each. intros tag _. apply appending_put.
Qed.

Lemma output_of_Dump_WayNodeList (d : Dump) (wnl : WayNodeList) :
  output_of (Dump_WayNodeList d wnl) =
  (output_of (print_title d "NODES" (wnl_size wnl))
   ++ texts (map (fun wn =>
                    m_prefix d
                    ++ ("  ref=" ++ show_Z (wn_ref wn)
                        ++ (if defined (wn_location wn)
                            then " pos=" ++ show_location (wn_location wn)
                            else ""))
                    ++ nl)
               (wnl_nodes wnl)))%string.
Proof.
  unfold Dump_WayNodeList.
  assert (Hbody : forall wn : WayNode,
             appending
               (put (m_prefix d ++ "  ref=" ++ show_Z (wn_ref wn)) ;;
                (if defined (wn_location wn)
                 then put (" pos=" ++ show_location (wn_location wn))
                 else skip) ;;
                put nl)) by (intros wn; auto with appending).
  rewrite output_of_and_then;
    [|apply appending_print_title | now apply appending_for_each].
  f_equal. rewrite output_of_for_each by (intros wn _; apply Hbody).
  f_equal. apply map_ext. intros wn.
  rewrite !output_of_and_then by auto with appending.
  rewrite !output_of_put.
  destruct (defined (wn_location wn)).
  - rewrite output_of_put. now rewrite <- !append_assoc.
  - rewrite output_of_skip. now rewrite <- !append_assoc.
Qed.

(** X10: a list of tags is written as its title and one line for each tag,
    in the stored order and with repeated keys kept; a list of way nodes as
    its title and one line for each node, which shows the position exactly
    when the location of the node is defined.  An empty list writes its
    title alone. *)
Theorem dump_lists_line_by_line (d : Dump) (tl : TagList)
    (wnl : WayNodeList) :
  written d (ITagList tl)
  = (output_of (print_title d "TAGS" (tl_size tl))
     ++ texts (map (fun tag =>
                      m_prefix d ++ "  k=|" ++ key tag ++ "| v=|"
                      ++ value tag ++ "|" ++ nl)
                 (tl_tags tl)))%string
  /\ written d (IWayNodeList wnl)
     = (output_of (print_title d "NODES" (wnl_size wnl))
        ++ texts (map (fun wn =>
                         m_prefix d
                         ++ ("  ref=" ++ show_Z (wn_ref wn)
                             ++ (if defined (wn_location wn)
                                 then " pos="
                                      ++ show_location (wn_location wn)
                                 else ""))
                         ++ nl)
                    (wnl_nodes wnl)))%string
  /\ written d (ITagList (mkTagList (tl_size tl) []))
     = output_of (print_title d "TAGS" (tl_size tl))
  /\ written d (IWayNodeList (mkWayNodeList (wnl_size wnl) []))
     = output_of (print_title d "NODES" (wnl_size wnl)).
Proof.
  unfold written. simpl apply_visitor.
  rewrite !output_of_Dump_TagList, !output_of_Dump_WayNodeList.
  cbn [tl_tags tl_size wnl_nodes wnl_size map texts fold_right].
  rewrite !append_nil_r. repeat split.
Qed.

Lemma prefixed_print_title (d : Dump) (title : string) (sz : Z) :
  no_newline title ->
  prefixed (m_prefix d) (output_of (print_title d title sz)).
Proof.
  intros Ht. eapply prefixed_line; [|apply output_of_print_title].
  no_newline_tac.
Qed.

Lemma prefixed_print_meta_fields (d : Dump) (o : ObjectMemory Item) :
  (forall t, no_newline (to_iso t)) ->
  no_newline (om_user o) ->
  prefixed (m_prefix d) (output_of (print_meta_fields d o)).
Proof.
  intros Hiso Huser. unfold print_meta_fields.
  rewrite !output_of_and_then by auto 10 with appending.
  rewrite !output_of_put.
  do 6 (apply prefixed_app; [prefixed_line_tac|]).
  prefixed_line_tac.
Qed.

Lemma prefixed_print_location (d : Dump) (l : Location) :
  (forall l, no_newline (show_lon l)) ->
  (forall l, no_newline (show_lat l)) ->
  prefixed (m_prefix d) (output_of (print_location d l)).
Proof.
  intros Hlon Hlat. unfold print_location.
  rewrite !output_of_and_then by auto with appending.
  rewrite !output_of_put.
  apply prefixed_app; prefixed_line_tac.
Qed.

Lemma written_IRelationMemberList (d : Dump) (sz : Z)
    (members : list (RelationMember Item)) :
  written d (IRelationMemberList sz members) =
  (output_of (print_title d "MEMBERS" sz)
   ++ texts
        (map (fun m =>
                (m_prefix d ++ "  type=" ++ show_item_type (rm_type m)
                 ++ " ref=" ++ show_Z (rm_ref m)
                 ++ " role=|" ++ rm_role m ++ "|" ++ nl)
                ++ match rm_resolved_object m with
                   | Some object =>
                       written (mkDump (m_with_size d) (m_prefix d ++ "  | "))
                         object
                   | None => ""
                   end)
           members))%string.
Proof.
  unfold written at 1. simpl apply_visitor. unfold Dump_RelationMemberList.
  assert (Hbody : forall m : RelationMember Item,
             appending
               (put (m_prefix d ++ "  type=" ++ show_item_type (rm_type m)
                     ++ " ref=" ++ show_Z (rm_ref m)
                     ++ " role=|" ++ rm_role m ++ "|" ++ nl) ;;
                (if full_member m
                 then match get_object m with
                      | Some object =>
                          apply_visitor
                            (mkDump (m_with_size d) (m_prefix d ++ "  | "))
                            object
                      | None => fault
                      end
                 else skip))).
  { intros m. apply appending_member.
    intros object _ d0. apply appending_apply_visitor. }
  rewrite output_of_and_then;
    [|apply appending_print_title | now apply appending_for_each].
  f_equal. rewrite output_of_for_each by (intros m _; apply Hbody).
  f_equal. apply map_ext. intros m.
  unfold full_member, get_object.
  destruct (rm_resolved_object m) as [object|].
  - rewrite output_of_and_then;
      [reflexivity | apply appending_put | apply appending_apply_visitor].
  - rewrite output_of_and_then;
      [reflexivity | apply appending_put | apply appending_skip].
Qed.

Lemma no_newline_title_of (it : Item) : no_newline (title_of it).
Proof. destruct it; simpl; repeat split; discriminate. Qed.

Lemma lines_after_title_prefixed (d : Dump) (it : Item) :
  lines_after_title d it -> prefixed (m_prefix d) (written d it).
Proof.
  intros [rest [Hrest ->]]. apply prefixed_app; [|exact Hrest].
  apply prefixed_print_title, no_newline_title_of.
Qed.

Lemma prefixed_subitems (d : Dump) (subitems : list Item) :
  (forall it, In it subitems -> forall d', lines_after_title d' it) ->
  prefixed (m_prefix d)
    (texts (map (written (mkDump (m_with_size d) (m_prefix d ++ "  ")))
              subitems)).
Proof.
  intros H. apply prefixed_texts. intros it Hit.
  apply (prefixed_weaken _ "  "); [no_newline_tac|].
  apply lines_after_title_prefixed. exact (H it Hit (mkDump _ _)).
Qed.

Lemma lines_after_title_object (d : Dump) (o : ObjectMemory Item) :
  shows_without_newline ->
  no_newline (om_user o) ->
  (forall it, In it (om_subitems o) -> forall d', lines_after_title d' it) ->
  prefixed (m_prefix d)
    (output_of (print_meta_fields d o)
     ++ texts (map (written (mkDump (m_with_size d) (m_prefix d ++ "  ")))
                 (om_subitems o))).
Proof.
  intros [Hiso _] Huser Hsub. apply prefixed_app.
  - now apply prefixed_print_meta_fields.
  - now apply prefixed_subitems.
Qed.

Lemma lines_after_title_all (it : Item) :
  shows_without_newline ->
  texts_without_newline it ->
  forall d, lines_after_title d it.
Proof.
  intros Hshow.
  pose proof Hshow as [Hiso [Hlon [Hlat [Hloc Htype]]]].
  induction it as [tl|wnl|sz members IH|o IH location|o IH|o IH]
    using Item_ind; intros Hclean d; unfold lines_after_title;
    cbn [title_of item_size]; cbn [texts_without_newline] in Hclean.
  - eexists. split; [|unfold written; simpl apply_visitor;
                      apply output_of_Dump_TagList].
    apply prefixed_texts. intros tag Htag.
    destruct (every_In _ _ Hclean tag Htag) as [Hk Hv].
    prefixed_line_tac.
  - eexists. split; [|unfold written; simpl apply_visitor;
                      apply output_of_Dump_WayNodeList].
    apply prefixed_texts. intros wn _. prefixed_line_tac.
  - eexists. split; [|apply written_IRelationMemberList].
    apply prefixed_texts. intros m Hm.
    destruct (every_In _ _ Hclean m Hm) as [Hrole Hobj].
    apply prefixed_app; [prefixed_line_tac|].
    destruct (rm_resolved_object m) as [object|] eqn:E;
      [|apply prefixed_nil].
    apply (prefixed_weaken _ "  | "); [no_newline_tac|].
    apply lines_after_title_prefixed.
    exact (RelationMember_all_In _ _ IH m object Hm E Hobj (mkDump _ _)).
  - destruct Hclean as [Huser Hsub].
    pose proof (ObjectMemory_all_In _ _ IH) as IH'.
    eexists. split.
    + apply prefixed_app; [|exact (prefixed_print_location d location
                                     Hlon Hlat)].
      apply (lines_after_title_object d o Hshow Huser).
      intros it Hit. apply (IH' it Hit). exact (every_In _ _ Hsub it Hit).
    + rewrite written_INode. now rewrite <- !append_assoc.
  - destruct Hclean as [Huser Hsub].
    pose proof (ObjectMemory_all_In _ _ IH) as IH'.
    eexists. split.
    + apply (lines_after_title_object d o Hshow Huser).
      intros it Hit. apply (IH' it Hit). exact (every_In _ _ Hsub it Hit).
    + rewrite written_IWay. now rewrite <- !append_assoc.
  - destruct Hclean as [Huser Hsub].
    pose proof (ObjectMemory_all_In _ _ IH) as IH'.
    eexists. split.
    + apply (lines_after_title_object d o Hshow Huser).
      intros it Hit. apply (IH' it Hit). exact (every_In _ _ Hsub it Hit).
    + rewrite written_IRelation. now rewrite <- !append_assoc.
Qed.

(** X11: when the texts stored in an item and in the items nested in it
    (keys, values, user names, roles) and the texts of the absent stream
    insertions hold no newline, what a Dump writes for the item is a
    sequence of lines, each the prefix of the Dump, then a text without
    newline, then one newline; the first is the title line of the handler
    that the type tag of the item selects.  The lines of nested items,
    written by a Dump with a longer prefix, are among them. *)
Theorem dump_lines_start_with_prefix (d : Dump) (it : Item) :
  shows_without_newline ->
  texts_without_newline it ->
  exists lines : list string,
    Forall no_newline lines
    /\ written d it
       = texts
           (map (fun l => m_prefix d ++ l ++ nl)%string
              ((title_of it ++ ":"
                ++ (if m_with_size d
                    then " [" ++ show_Z (item_size it) ++ "]"
                    else ""))%string
               :: lines)).
Proof.
  intros Hshow Hclean.
  destruct (lines_after_title_all it Hshow Hclean d)
    as [rest [[lines [Hlines ->]] E]].
  exists lines. split; [exact Hlines|].
  rewrite E, output_of_print_title. simpl. now rewrite <- !append_assoc.
Qed.

End DumpText.

Lemma dump_lines_start_with_prefix_witness :
  @shows_without_newline seconds grid
  /\ texts_without_newline example_way
  /\ exists lines : list string,
      Forall no_newline lines
      /\ written (mkDump true "") example_way
         = texts (map (fun l => "" ++ l ++ nl)%string
                    ("WAY: [120]" :: lines)).
Proof.
  assert (H1 : @shows_without_newline seconds grid).
  { unfold shows_without_newline; simpl.
    repeat split; try apply no_newline_show_Z;
      intros x; destruct x; no_newline_tac. }
  assert (H2 : texts_without_newline example_way)
    by (cbn; repeat split; discriminate).
  split; [exact H1|]. split; [exact H2|].
  exact (dump_lines_start_with_prefix (mkDump true "") example_way H1 H2).
Defined.

(** ** The command line of osmium_convert *)

Lemma last_default_irrelevant {A : Type} (x : A) (l : list A) (d d' : A) :
  last (x :: l) d = last (x :: l) d'.
Proof.
  revert x. induction l as [|y l IH]; intros x; [reflexivity|].
  change (last (y :: l) d = last (y :: l) d'). apply IH.
Qed.

Lemma last_cons {A : Type} (x : A) (l : list A) (d : A) :
  last (x :: l) d = last l x.
Proof.
  destruct l as [|y l]; [reflexivity|].
  change (last (y :: l) d = last (y :: l) x). apply last_default_irrelevant.
Qed.

(** X12: in the option loop of [main], as long as [getopt_long] returns f
    and t, the last -f gives the input format and the last -t the output
    format, each as it was before if never given.  The first other value
    decides: -1 ends the loop, h writes the help text to [std::cout] and
    exits with 0 whatever follows, and every other value, also the d that
    the option string declares, exits with 1.  [main] itself writes nothing
    else: [std::cerr] holds what [getopt_long] wrote in the calls made, up
    to the deciding one. *)
Theorem option_loop_first_other_decides (pre : list getopt_call)
    (call : getopt_call) (rest : list getopt_call) (f : formats) :
  Forall (fun r => call_value r = uchar "f" \/ call_value r = uchar "t") pre ->
  call_value call <> uchar "f" ->
  call_value call <> uchar "t" ->
  let chosen :=
    mkFormats
      (last (map call_optarg
               (filter (fun r => call_value r =? uchar "f") pre))
         (input_format f))
      (last (map call_optarg
               (filter (fun r => call_value r =? uchar "t") pre))
         (output_format f)) in
  let diagnostics l := texts (map call_diagnostic l) in
  option_loop pre f = ("", diagnostics pre, Next chosen)
  /\ option_loop (pre ++ call :: rest)%list f
     = (if call_value call =? -1 then ("", diagnostics (pre ++ [call])%list, Next chosen)
        else if call_value call =? uchar "h"
        then (print_help, diagnostics (pre ++ [call])%list, Exit 0)
        else ("", diagnostics (pre ++ [call])%list, Exit 1))
  /\ (call_value call = uchar "d" ->
      option_loop (pre ++ call :: rest)%list f
      = ("", diagnostics (pre ++ [call])%list, Exit 1)).
Proof.
  assert (Ef : uchar "f" = 102) by reflexivity.
  assert (Et : uchar "t" = 116) by reflexivity.
  assert (Eh : uchar "h" = 104) by reflexivity.
  assert (Ed : uchar "d" = 100) by reflexivity.
  rewrite Ef, Et, Eh, Ed. intros Hpre Hcf Hct chosen diagnostics.
  assert (Hmain :
            option_loop pre f = ("", diagnostics pre, Next chosen)
            /\ option_loop (pre ++ call :: rest)%list f
               = (if call_value call =? -1
                  then ("", diagnostics (pre ++ [call])%list, Next chosen)
                  else if call_value call =? 104
                  then (print_help, diagnostics (pre ++ [call])%list, Exit 0)
                  else ("", diagnostics (pre ++ [call])%list, Exit 1))).
  { subst chosen diagnostics. revert f.
    induction Hpre as [|[c0 a dg] pre [H0|H0] Hpre IH]; intros f;
      cbn [app call_value] in *.
    - destruct f as [fi fo].
      cbn [option_loop filter map last input_format output_format texts
             fold_right call_value call_diagnostic app].
      rewrite ?Ef, ?Et, ?Eh.
      split; [reflexivity|].
      destruct (Z.eqb_spec (call_value call) (-1)); [reflexivity|].
      destruct (Z.eqb_spec (call_value call) 104); [reflexivity|].
      destruct (Z.eqb_spec (call_value call) 102); [contradiction|].
      destruct (Z.eqb_spec (call_value call) 116);
        [contradiction | reflexivity].
    - subst c0.
      cbn [option_loop filter map call_value call_optarg call_diagnostic
             texts fold_right].
      rewrite ?Ef, ?Et, ?Eh.
      change (102 =? -1) with false. change (102 =? 104) with false.
      change (102 =? 102) with true. change (102 =? 116) with false.
      cbn iota. cbn [map]. rewrite last_cons.
      destruct (IH (mkFormats a (output_format f))) as [IH1 IH2].
      cbn [input_format output_format] in IH1, IH2.
      rewrite IH1, IH2. split; [reflexivity|].
      destruct (call_value call =? -1); [reflexivity|].
      destruct (call_value call =? 104); reflexivity.
    - subst c0.
      cbn [option_loop filter map call_value call_optarg call_diagnostic
             texts fold_right].
      rewrite ?Ef, ?Et, ?Eh.
      change (116 =? -1) with false. change (116 =? 104) with false.
      change (116 =? 102) with false. change (116 =? 116) with true.
      cbn iota. cbn [map]. rewrite last_cons.
      destruct (IH (mkFormats (input_format f) a)) as [IH1 IH2].
      cbn [input_format output_format] in IH1, IH2.
      rewrite IH1, IH2. split; [reflexivity|].
      destruct (call_value call =? -1); [reflexivity|].
      destruct (call_value call =? 104); reflexivity. }
  destruct Hmain as [H1 H2]. split; [exact H1|]. split; [exact H2|].
  intros E. rewrite H2, E. reflexivity.
Qed.

Lemma option_loop_first_other_decides_witness :
  Forall (fun r => call_value r = uchar "f" \/ call_value r = uchar "t")
    [mkCall (uchar "f") "osm" ""; mkCall (uchar "t") "pbf" "";
     mkCall (uchar "f") "osh" ""]
  /\ option_loop
       [mkCall (uchar "f") "osm" ""; mkCall (uchar "t") "pbf" "";
        mkCall (uchar "f") "osh" ""]
       (mkFormats "" "")
     = ("", "", Next (mkFormats "osh" "pbf"))
  /\ option_loop
       [mkCall (uchar "f") "osm" ""; mkCall (uchar "t") "pbf" "";
        mkCall (uchar "f") "osh" "";
        mkCall (uchar "?") "" "osmium_convert: invalid option -- 'x'";
        mkCall (uchar "h") "" ""]
       (mkFormats "" "")
     = ("", "osmium_convert: invalid option -- 'x'", Exit 1).
Proof.
  assert (H : Forall
                (fun r => call_value r = uchar "f" \/ call_value r = uchar "t")
                [mkCall (uchar "f") "osm" ""; mkCall (uchar "t") "pbf" "";
                 mkCall (uchar "f") "osh" ""])
    by (repeat constructor; simpl; auto).
  assert (Hf : call_value
                 (mkCall (uchar "?") ""
                    "osmium_convert: invalid option -- 'x'")
               <> uchar "f") by discriminate.
  assert (Ht : call_value
                 (mkCall (uchar "?") ""
                    "osmium_convert: invalid option -- 'x'")
               <> uchar "t") by discriminate.
  pose proof (option_loop_first_other_decides _ _ [mkCall (uchar "h") "" ""]
                (mkFormats "" "") H Hf Ht) as [H1 [H2 _]].
  split; [exact H|]. split; [exact H1 | exact H2].
Defined.

(** X13: the command line is read in this order: when the option loop
    makes [main] exit, the arguments are never looked at, and what was
    written is what the loop wrote; otherwise more than two arguments end
    [main] with status 1 after the usage line, which names [argv[0]], was
    added to [std::cerr], and with at most two the input is the first and
    the output the second, each empty if missing, and nothing was added to
    what the loop wrote.  [main] exits with 0 only after the help text. *)
Theorem read_command_line_outcomes (argv0 : string)
    (calls : list getopt_call) (args : list string) :
  match read_command_line argv0 calls args with
  | (out, err, Exit status) =>
      (status = 0 /\ out = print_help
       /\ option_loop calls (mkFormats "" "") = (print_help, err, Exit 0))
      \/ (status = 1 /\ out = ""
          /\ option_loop calls (mkFormats "" "") = ("", err, Exit 1))
      \/ (status = 1 /\ out = "" /\ (2 < List.length args)%nat
          /\ exists f diagnostics,
              option_loop calls (mkFormats "" "") = ("", diagnostics, Next f)
              /\ err = (diagnostics ++ "Usage: " ++ argv0
                        ++ " [OPTIONS] [INFILE [OUTFILE]]" ++ nl)%string)
  | (out, err, Next (f, (input, output))) =>
      out = "" /\ (List.length args <= 2)%nat
      /\ input = nth 0 args "" /\ output = nth 1 args ""
      /\ option_loop calls (mkFormats "" "") = ("", err, Next f)
  end.
Proof.
  assert (Hloop : forall calls f,
             (exists err, option_loop calls f = (print_help, err, Exit 0))
             \/ (exists err, option_loop calls f = ("", err, Exit 1))
             \/ exists err f', option_loop calls f = ("", err, Next f')).
  { clear. intros calls. induction calls as [|[c a dg] calls IH]; intros f.
    - right. right. now exists "", f.
    - cbn [option_loop call_value call_optarg call_diagnostic].
      destruct (c =? -1); [right; right; now exists (dg ++ "")%string, f|].
      destruct (c =? uchar "h"); [left; now exists (dg ++ "")%string|].
      assert (Hstep : forall f0,
                 (exists err,
                     after_diagnostic dg (option_loop calls f0)
                     = (print_help, err, Exit 0))
                 \/ (exists err,
                        after_diagnostic dg (option_loop calls f0)
                        = ("", err, Exit 1))
                 \/ exists err f',
                      after_diagnostic dg (option_loop calls f0)
                      = ("", err, Next f')).
      { intros f0.
        destruct (IH f0) as [[err E]|[[err E]|[err [f' E]]]]; rewrite E.
        - left. now eexists.
        - right. left. now eexists.
        - right. right. now do 2 eexists. }
      destruct (c =? uchar "f"); [apply Hstep|].
      destruct (c =? uchar "t"); [apply Hstep|].
      right. left. now exists (dg ++ "")%string. }
  unfold read_command_line.
  destruct (Hloop calls (mkFormats "" ""))
    as [[err E]|[[err E]|[err [f E]]]]; rewrite E.
  - left. repeat split.
  - right. left. repeat split.
  - unfold positional_arguments.
    destruct args as [|a1 [|a2 [|a3 args]]]; cbn [List.length nth].
    + cbn. rewrite append_nil_r. repeat split; lia.
    + cbn. rewrite append_nil_r. repeat split; lia.
    + cbn. rewrite append_nil_r. repeat split; lia.
    + assert (Hgt : (Z.of_nat (S (S (S (List.length args)))) >? 2) = true)
        by (apply Z.gtb_lt; lia).
      rewrite Hgt. right. right.
      repeat split; try lia. now exists f, err.
Qed.

(** ** The warning about the file types *)

Lemma three_types_eqb_eq (a b : three_types) :
  three_types_eqb a b = true <-> a = b.
Proof. destruct a, b; simpl; split; congruence. Qed.

(** X14: when the file types OSM and History differ, [main] writes a warning
    exactly when the types of the input and of the output file differ, and
    it is the general one unless one of the types is OSM and the other
    History. *)
Theorem type_warning_iff_types_differ {F : FileTypes}
    (infile_type outfile_type : FileType) :
  OSM <> History ->
  (type_warning infile_type outfile_type = "" <-> infile_type = outfile_type)
  /\ (infile_type <> outfile_type ->
      ~ (infile_type = OSM /\ outfile_type = History) ->
      ~ (infile_type = History /\ outfile_type = OSM) ->
      type_warning infile_type outfile_type
      = ("Warning! Source and destination are not of the same type."
         ++ nl)%string).
Proof.
  intros Hdiff. unfold type_warning.
  pose proof (FileType_eqb_eq infile_type OSM) as H1.
  pose proof (FileType_eqb_eq outfile_type History) as H2.
  pose proof (FileType_eqb_eq infile_type History) as H3.
  pose proof (FileType_eqb_eq outfile_type OSM) as H4.
  pose proof (FileType_eqb_eq infile_type outfile_type) as H5.
  destruct (FileType_eqb infile_type OSM),
    (FileType_eqb outfile_type History),
    (FileType_eqb infile_type History),
    (FileType_eqb outfile_type OSM),
    (FileType_eqb infile_type outfile_type);
    cbn [andb negb];
    (split; [split; intros E | intros Hne Ha Hb]);
    try reflexivity; try discriminate E;
    try (intuition congruence); exfalso; intuition congruence.
Qed.

(** Three file types compared by name, of which the first two are OSM and
    History. *)
Local Abbreviation three_file_types :=
  (Build_FileTypes three_types three_types_eqb three_types_eqb_eq
     type_osm type_osh).

Lemma type_warning_iff_types_differ_witness :
  @OSM three_file_types <> @History three_file_types
  /\ (@type_warning three_file_types type_other type_other = ""
      <-> type_other = type_other)
  /\ @type_warning three_file_types type_osh type_other
     = ("Warning! Source and destination are not of the same type."
        ++ nl)%string.
Proof.
  assert (H : @OSM three_file_types <> @History three_file_types)
    by discriminate.
  split; [exact H|]. split.
  - exact (proj1 (@type_warning_iff_types_differ three_file_types
                    type_other type_other H)).
  - apply (proj2 (@type_warning_iff_types_differ three_file_types
                    type_osh type_other H));
      [discriminate | intros [E _]; discriminate E
       | intros [_ E]; discriminate E].
Defined.

(** ** The order and the other fields *)

(** X15: the order looks at the identifier and the version only: setting
    the deleted flag, the timestamp, the user or the changeset of either
    object does not change how the two compare. *)
Theorem lt_ignores_other_fields {T : Types} (a b : Object) (d1 d2 : bool)
    (x y : Z) :
  lt (set_deleted d1 a) (set_deleted d2 b) = lt a b
  /\ lt (set_visible d1 a) (set_visible d2 b) = lt a b
  /\ lt (set_timestamp x a) (set_timestamp y b) = lt a b
  /\ lt (set_uid x a) (set_uid y b) = lt a b
  /\ lt (uid_from_signed x a) (uid_from_signed y b) = lt a b
  /\ lt (set_changeset x a) (set_changeset y b) = lt a b.
Proof.
  split; [|split].
  - unfold lt. now rewrite !version_set_deleted.
  - rewrite !set_visible_set_deleted. unfold lt.
    now rewrite !version_set_deleted.
  - repeat split.
Qed.

(** ** The order on identifiers that are values of int *)

(** X16: on objects whose identifiers are values of [int] other than the
    least one, [a < b] holds exactly when [(a.id == b.id && a.version <
    b.version) || |a.id| < |b.id|].  So, with 32-bit versions, for the same
    identifier 5 the order is that of the versions; whatever the versions,
    identifier -5 is less than identifier 6, and of identifiers 5 and -5
    neither is less than the other. *)
Theorem lt_on_int_identifiers {T : Types} :
  (forall a b : Object,
      - 2 ^ (int_bits - 1) < id a < 2 ^ (int_bits - 1) ->
      - 2 ^ (int_bits - 1) < id b < 2 ^ (int_bits - 1) ->
      (lt a b = true <->
       (id a = id b /\ version a < version b) \/ Z.abs (id a) < Z.abs (id b)))
  /\ (@lt types32 (@object_with types32 5 1) (@object_with types32 5 2) = true
      /\ @lt types32 (@object_with types32 5 2) (@object_with types32 5 1)
         = false)
  /\ (forall v v', lt (object_with (-5) v) (object_with 6 v') = true)
  /\ (forall v v', lt (object_with 5 v) (object_with (-5) v') = false
                   /\ lt (object_with (-5) v') (object_with 5 v) = false).
Proof.
  split; [|split; [|split]].
  - intros a b Ha Hb. unfold lt.
    rewrite !abs_Zabs by assumption.
    rewrite orb_true_iff, andb_true_iff, Z.eqb_eq, !Z.ltb_lt. reflexivity.
  - split; vm_compute; reflexivity.
  - intros v v'. unfold lt. rewrite !id_object_with. apply orb_true_r.
  - intros v v'. unfold lt. rewrite !id_object_with. split; reflexivity.
Qed.

Lemma lt_on_int_identifiers_witness :
  - 2 ^ (int_bits - 1) < id (@object_with types32 (-7) 4) < 2 ^ (int_bits - 1)
  /\ - 2 ^ (int_bits - 1) < id (@object_with types32 9 1) < 2 ^ (int_bits - 1)
  /\ @lt types32 (object_with (-7) 4) (object_with 9 1) = true.
Proof.
  assert (H1 : - 2 ^ (int_bits - 1) < id (@object_with types32 (-7) 4)
               < 2 ^ (int_bits - 1))
    by (vm_compute; split; reflexivity).
  assert (H2 : - 2 ^ (int_bits - 1) < id (@object_with types32 9 1)
               < 2 ^ (int_bits - 1))
    by (vm_compute; split; reflexivity).
  split; [exact H1|]. split; [exact H2|].
  apply (proj1 (@lt_on_int_identifiers types32) _ _ H1 H2).
  right. vm_compute. reflexivity.
Defined.
